(** * Shallow embedding of [tensorboardX/summary.py]

    Python values are modelled as follows.
    - A Python 3 [str] is a list of Unicode code points ([pystr]).
    - A NumPy float array is an [ndarray]: a shape and its flat data in row-major
      order.  Floating-point numbers are modelled by exact rationals [Q].
    - A raised exception is the [Err] branch of [result].
    - Protocol buffers are records; their serialisation is left structured. *)

From Stdlib Require Import String Ascii ZArith QArith Qround Qminmax Qabs Lqa List Bool Lia.
From Stdlib Require Floats.SpecFloat.
Import ListNotations.
Open Scope Z_scope.

(** ** Exceptions and the error monad *)

Inductive PyError :=
| ValueError (msg : string)
| AssertionError (msg : string)
| TypeError (msg : string)
| NameError (name : string)
| UnboundLocalError (name : string)
| WaveError (msg : string)
| StructError (msg : string)
| IndexError (msg : string).

Inductive result (A : Type) :=
| Ok (a : A)
| Err (e : PyError).
Arguments Ok {A} a.
Arguments Err {A} e.

Definition bind {A B} (m : result A) (k : A -> result B) : result B :=
  match m with
  | Ok a => k a
  | Err e => Err e
  end.

Notation "x <- m ;; k" := (bind m (fun x => k))
  (at level 61, m at next level, right associativity).

Definition is_err {A} (r : result A) : bool :=
  match r with Ok _ => false | Err _ => true end.

(** ** Python strings *)

Definition pystr := list N.

Definition pystr_of_string (s : string) : pystr :=
  map (fun a => N_of_ascii a) (list_ascii_of_string s).

(** [\w] restricted to ASCII: [A-Za-z0-9_]. *)
Definition ascii_isword (c : N) : bool :=
  ((48 <=? c)%N && (c <=? 57)%N) || ((65 <=? c)%N && (c <=? 90)%N)
  || ((97 <=? c)%N && (c <=? 122)%N) || (c =? 95)%N.

(** Python 3's [\w] on [str] patterns is [str.isalnum() or c == '_'], which
    includes non-ASCII letters and digits.  This table gives it exactly on the
    Latin-1 range U+0000..U+00FF (the ordinal indicators, superscript digits,
    micro sign, vulgar fractions and the letters U+00C0..U+00FF except the
    multiplication and division signs).  Code points from U+0100 on are not
    tabulated and answer [false]; the theorems below are stated for any word
    predicate, and this one is only evaluated on Latin-1 strings. *)
Definition latin1_isword (c : N) : bool :=
  ascii_isword c
  || (c =? 170)%N || (c =? 178)%N || (c =? 179)%N || (c =? 181)%N
  || (c =? 185)%N || (c =? 186)%N
  || ((188 <=? c)%N && (c <=? 190)%N)
  || ((192 <=? c)%N && (c <=? 214)%N)
  || ((216 <=? c)%N && (c <=? 246)%N)
  || ((248 <=? c)%N && (c <=? 255)%N).

(** ** Tag sanitisation: [_INVALID_TAG_CHARACTERS] and [_clean_tag] *)

Section CleanTag.

Variable is_word : N -> bool.

(** Characters matched by the class [[-/\w\.]]. *)
Definition is_tag_char (c : N) : bool :=
  is_word c || (c =? 45)%N || (c =? 47)%N || (c =? 46)%N.

(** [_INVALID_TAG_CHARACTERS.sub('_', name)]: one-character pattern, so each
    matching character is replaced by ['_'] (95). *)
Definition invalid_sub (name : pystr) : pystr :=
  map (fun c => if is_tag_char c then c else 95%N) name.

(** [str.lstrip(ch)] *)
Fixpoint lstrip (ch : N) (s : pystr) : pystr :=
  match s with
  | [] => []
  | c :: r => if (c =? ch)%N then lstrip ch r else s
  end.

Fixpoint pystr_eqb (a b : pystr) : bool :=
  match a, b with
  | [], [] => true
  | x :: a', y :: b' => (x =? y)%N && pystr_eqb a' b'
  | _, _ => false
  end.

(** [logging.info] is called exactly when the name changes. *)
Definition clean_tag_logs (name : pystr) : bool :=
  negb (pystr_eqb (lstrip 47 (invalid_sub name)) name).

(** [_clean_tag(name)] for a [str] argument (the [None] branch returns [None]). *)
Definition clean_tag (name : pystr) : pystr :=
  let new_name := invalid_sub name in
  let new_name := lstrip 47 new_name in
  if negb (pystr_eqb new_name name) then new_name else name.

End CleanTag.

(** Characters of the set [[A-Za-z0-9_.\-/]]. *)
Definition ascii_tag_char (c : N) : bool :=
  ascii_isword c || (c =? 45)%N || (c =? 47)%N || (c =? 46)%N.

Definition starts_with_slash (s : pystr) : bool :=
  match s with
  | c :: _ => (c =? 47)%N
  | [] => false
  end.

(** ** NumPy arrays *)

Open Scope Q_scope.

Inductive DType := DT_uint8 | DT_float32 | DT_float64 | DT_int64.

Record ndarray := mk_ndarray { dtype : DType; shape : list nat; data : list Q }.

Definition size (a : ndarray) : nat := fold_right Nat.mul 1%nat (shape a).
Definition ndim (a : ndarray) : nat := length (shape a).

(** [a.squeeze()] drops every axis of length one. *)
Definition squeeze (a : ndarray) : ndarray :=
  mk_ndarray (dtype a) (filter (fun d => negb (Nat.eqb d 1)) (shape a)) (data a).

Definition list_min (l : list Q) : Q :=
  match l with [] => 0 | x :: r => fold_left Qmin r x end.
Definition list_max (l : list Q) : Q :=
  match l with [] => 0 | x :: r => fold_left Qmax r x end.
Definition qsum (l : list Q) : Q := fold_left Qplus l 0.
Definition dot (a b : list Q) : Q := qsum (map (fun p => fst p * snd p) (combine a b)).

(** Python slicing [l[s:e]] for indices [0 <= s] and [0 <= e]. *)
Definition py_slice {A} (l : list A) (s e : nat) : list A :=
  firstn (e - s) (skipn s l).

(** Index of the first element satisfying [p] ([enumerate] loop with [break]). *)
Fixpoint first_pos {A} (p : A -> bool) (l : list A) : option nat :=
  match l with
  | [] => None
  | x :: r => if p x then Some 0%nat else option_map S (first_pos p r)
  end.

(** ** [np.histogram] with an integer number of bins

    Bin edges are [np.linspace(first, last, bins + 1)].  A value [v] with
    [first <= v <= last] falls into bin [floor((v - first) * bins / (last - first))],
    the value [last] into the last bin; values outside the range are dropped.
    Under exact arithmetic the float corrections numpy applies afterwards
    change nothing. *)

Definition hist_range (a : list Q) (range : option (Q * Q)) : Q * Q :=
  let '(first, last) :=
    match range with
    | Some r => r
    | None => match a with [] => (0, 1) | _ => (list_min a, list_max a) end
    end in
  if Qeq_bool first last then (first - (1 # 2), last + (1 # 2)) else (first, last).

Definition bin_edges (bins : nat) (first last : Q) : list Q :=
  map (fun k => first + inject_Z (Z.of_nat k) * ((last - first) / inject_Z (Z.of_nat bins)))
      (seq 0 (S bins)).

Definition in_range (first last v : Q) : bool := Qle_bool first v && Qle_bool v last.

Definition bin_index (bins : nat) (first last v : Q) : nat :=
  let f := (v - first) * (inject_Z (Z.of_nat bins) / (last - first)) in
  let i := Z.to_nat (Qfloor f) in
  if Nat.eqb i bins then (bins - 1)%nat else i.

(** [np.bincount]: add [w] at position [i]. *)
Fixpoint add_at {A} (plus : A -> A -> A) (l : list A) (i : nat) (w : A) : list A :=
  match l, i with
  | [], _ => []
  | x :: r, O => plus x w :: r
  | x :: r, S i' => x :: add_at plus r i' w
  end.

Definition histogram_checks (a : list Q) (bins : Z) (range : option (Q * Q))
  : result (nat * Q * Q) :=
  if (bins <? 1)%Z then Err (ValueError "`bins` must be positive, when an integer")
  else
    let '(first, last) := hist_range a range in
    if Qlt_le_dec last first
    then Err (ValueError "max must be larger than min in range parameter.")
    else Ok (Z.to_nat bins, first, last).

(** One value counted by [np.histogram] without weights. *)
Definition count_step (n : nat) (first last : Q) (acc : list nat) (v : Q) : list nat :=
  if in_range first last v
  then add_at Nat.add acc (bin_index n first last v) 1%nat
  else acc.

(** [np.histogram(a, bins=bins, range=range)]: integer counts and the edges. *)
Definition np_histogram (a : list Q) (bins : Z) (range : option (Q * Q))
  : result (list nat * list Q) :=
  p <- histogram_checks a bins range ;;
  let '(n, first, last) := p in
  let counts := fold_left (count_step n first last) a (repeat 0%nat n) in
  Ok (counts, bin_edges n first last).

(** One weighted value counted by [np.histogram(..., weights=w)]. *)
Definition wcount_step (n : nat) (first last : Q) (acc : list Q) (vw : Q * Q) : list Q :=
  let '(v, x) := vw in
  if in_range first last v
  then add_at Qplus acc (bin_index n first last v) x
  else acc.

(** [np.histogram(a, bins=bins, range=range, weights=w)]: weighted counts. *)
Definition np_histogram_weighted (a : list Q) (bins : Z) (range : option (Q * Q))
  (w : list Q) : result (list Q * list Q) :=
  if negb (Nat.eqb (length w) (length a))
  then Err (ValueError "weights should have the same shape as a.")
  else
    p <- histogram_checks a bins range ;;
    let '(n, first, last) := p in
    let counts := fold_left (wcount_step n first last) (combine a w) (repeat 0 n) in
    Ok (counts, bin_edges n first last).

(** ** Protocol buffer records *)

Record HistogramProto := mk_histo {
  h_min : Q; h_max : Q; h_num : nat; h_sum : Q; h_sum_squares : Q;
  h_bucket_limit : list Q; h_bucket : list nat }.

(** [make_histogram(values, bins)] for an integer [bins]. *)
Definition make_histogram (values : ndarray) (bins : Z) : result HistogramProto :=
  if Nat.eqb (size values) 0 then Err (ValueError "The input has no element.")
  else
    let vals := data values in
    cl <- np_histogram vals bins None ;;
    let '(counts, limits) := cl in
    let limits := tl limits in
    let start := option_map (fun i => Z.to_nat (Z.max 0 (Z.of_nat i - 1)%Z))
                            (first_pos (fun c => Nat.ltb 0 c) counts) in
    let end_ := option_map (fun i => (length counts - i)%nat)
                           (first_pos (fun c => Nat.ltb 0 c) (rev counts)) in
    match start, end_ with
    | None, _ => Err (UnboundLocalError "start")
    | _, None => Err (UnboundLocalError "end")
    | Some start, Some end_ =>
        let counts := py_slice counts start end_ in
        let limits := py_slice limits start end_ in
        if Nat.eqb (length counts) 0 || Nat.eqb (length limits) 0
        then Err (ValueError "The histogram is emtpy, please file a bug report.")
        else
          let sum_sq := dot vals vals in
          Ok (mk_histo (list_min vals) (list_max vals) (length vals) (qsum vals)
                       sum_sq limits counts)
    end.

(** The start index of the trimmed slice: one bucket before the first
    non-empty one, or 0. *)
Definition trim_start (i : nat) : nat := Z.to_nat (Z.max 0 (Z.of_nat i - 1)%Z).

(** The array [[1, 1, 1, 5, 5, 5]] as float64. *)
Definition hist_example : ndarray := mk_ndarray DT_float64 [6%nat] [1; 1; 1; 5; 5; 5].


(** ** Summary records *)

Record Image := mk_image {
  img_height : nat; img_width : nat; img_colorspace : nat; img_encoded : list Z }.

Record Audio := mk_audio {
  au_sample_rate : Z; au_num_channels : Z; au_length_frames : nat;
  au_encoded : list Z; au_content_type : string }.

Inductive PluginContent :=
| NoContent
| PrCurvePluginData (version num_thresholds : Z)
| TextPluginData (version : Z).

Record PluginData := mk_plugin { plugin_name : string; plugin_content : PluginContent }.

(** [layout_pb2.Chart]: a margin chart or a multiline chart. *)
Inductive Chart :=
| MarginChart (title value lower upper : pystr)
| MultilineChart (title : pystr) (tags : list pystr).

Record Category := mk_category { cat_title : pystr; cat_charts : list Chart }.

Inductive TensorContent :=
| FloatVal (l : list Q)
| StringVal (l : list (list Z))
| LayoutVal (categories : list Category).

Record TensorProto := mk_tensor {
  t_dtype : string; t_content : TensorContent; t_dims : list nat }.

(** The [value] one-of of [Summary.Value]; [NoValue] when the message given
    for it is [None] (protobuf ignores keyword arguments that are [None]). *)
Inductive ValueKind :=
| NoValue
| SimpleValue (q : Q)
| Histo (h : HistogramProto)
| ImageValue (img : Image)
| AudioValue (a : Audio)
| TensorValue (t : TensorProto).

Record SummaryValue := mk_value {
  v_tag : pystr; v_metadata : list PluginData; v_value : ValueKind }.

Definition Summary := list SummaryValue.

Definition image_value (o : option Image) : ValueKind :=
  match o with Some i => ImageValue i | None => NoValue end.

(** Monadic map over a list. *)
Fixpoint mapM {A B} (f : A -> result B) (l : list A) : result (list B) :=
  match l with
  | [] => Ok []
  | x :: r => y <- f x ;; ys <- mapM f r ;; Ok (y :: ys)
  end.

(** ** [scalar] and [histogram] *)

Section Entries.

(** Word-character predicate of the regex engine. *)
Variable is_word : N -> bool.

Definition scalar (name : pystr) (s : ndarray) : result Summary :=
  let name := clean_tag is_word name in
  if negb (Nat.eqb (ndim (squeeze s)) 0)
  then Err (AssertionError "scalar should be 0D")
  else
    match data s with
    | [x] => Ok [mk_value name [] (SimpleValue x)]
    | _ => Err (TypeError "only size-1 arrays can be converted to Python scalars")
    end.

Definition histogram (name : pystr) (values : ndarray) (bins : Z) : result Summary :=
  let name := clean_tag is_word name in
  hist <- make_histogram values bins ;;
  Ok [mk_value name [] (Histo hist)].

End Entries.

(** ** Images and videos

    The raster codecs are external collaborators: [png_encode] stands for
    [PIL.Image.fromarray(...).resize(...).save(format='PNG')], [gif_encode] for
    moviepy's [ImageSequenceClip(...).write_gif] read back from the temporary
    file, and [cast_u8] for NumPy's [astype(np.uint8)] of a float. *)

Section Codecs.

Variable is_word : N -> bool.
Variable cast_u8 : Q -> Z.
Variable png_encode : nat -> nat -> nat -> list Z -> Q -> list Z.
Variable gif_encode : nat -> nat -> nat -> nat -> list Z -> Z -> list Z.

(** [_calc_scale_factor] *)
Definition calc_scale_factor (t : ndarray) : Q :=
  match dtype t with DT_uint8 => 1 | _ => 255 end.

(** [(tensor.astype(np.float32) * scale_factor).astype(np.uint8)] *)
Definition to_uint8 (t : ndarray) (scale_factor : Q) : list Z :=
  map (fun x => cast_u8 (x * scale_factor)) (data t).

(** [draw_boxes] calls [shuffle], a name that is neither defined nor imported
    in the module: the call raises [NameError]. *)
Definition draw_boxes (rois : ndarray) : result unit :=
  Err (NameError "shuffle").

Definition make_image (shp : list nat) (pixels : list Z) (rescale : Q)
  (rois : option ndarray) : result Image :=
  match shp with
  | [height; width; channel] =>
      u <- match rois with
           | Some r => draw_boxes r
           | None => Ok tt
           end ;;
      Ok (mk_image height width channel (png_encode height width channel pixels rescale))
  | _ => Err (ValueError "not enough values to unpack")
  end.

Definition image (tag : pystr) (tensor : ndarray) (rescale : Q) : result Summary :=
  let tag := clean_tag is_word tag in
  let scale_factor := calc_scale_factor tensor in
  let pixels := to_uint8 tensor scale_factor in
  img <- make_image (shape tensor) pixels rescale None ;;
  Ok [mk_value tag [] (ImageValue img)].

(** Rows of a 2-D array of shape [[n; m]]. *)
Fixpoint rows (n m : nat) (d : list Q) : list (list Q) :=
  match n with
  | O => []
  | S n' => firstn m d :: rows n' m (skipn m d)
  end.

(** [tensor_boxes[:, 1:5]] *)
Definition box_columns (b : ndarray) : result ndarray :=
  match shape b with
  | [n; m] =>
      Ok (mk_ndarray (dtype b) [n; (Nat.min 5 m - 1)%nat]
                     (concat (map (fun r => py_slice r 1 5) (rows n m (data b)))))
  | _ => Err (TypeError "too many indices for array")
  end.

Definition image_boxes (tag : pystr) (tensor_image tensor_boxes : ndarray) (rescale : Q)
  : result Summary :=
  let scaled := map (fun x => x * calc_scale_factor tensor_image) (data tensor_image) in
  rois <- box_columns tensor_boxes ;;
  img <- make_image (shape tensor_image) (map cast_u8 scaled) rescale (Some rois) ;;
  Ok [mk_value tag [] (ImageValue img)].

(** Which optional imports succeed. *)
Record Env := mk_env { has_moviepy : bool; has_moviepy_editor : bool }.

(** [make_video]: the lines printed and the image, [None] when it returns early. *)
Definition make_video (env : Env) (shp : list nat) (pixels : list Z) (fps : Z)
  : result (list string * option Image) :=
  if negb (has_moviepy env) then Ok (["add_video needs package moviepy"%string], None)
  else if negb (has_moviepy_editor env)
  then Ok (["moviepy is installed, but can't import moviepy.editor. Some packages could be missing [imageio, requests]"%string], None)
  else
    match shp with
    | [t; h; w; c] => Ok ([], Some (mk_image h w c (gif_encode t h w c pixels fps)))
    | _ => Err (ValueError "not enough values to unpack")
    end.

Definition video (env : Env) (tag : pystr) (tensor : ndarray) (fps : Z)
  : result (list string * Summary) :=
  let tag := clean_tag is_word tag in
  let scale_factor := calc_scale_factor tensor in
  let pixels := to_uint8 tensor scale_factor in
  r <- make_video env (shape tensor) pixels fps ;;
  let '(printed, vid) := r in
  Ok (printed, [mk_value tag [] (image_value vid)]).

End Codecs.

(** ** Byte packing ([struct.pack], little-endian) *)

Definition le_bytes (n : nat) (v : Z) : list Z :=
  map (fun k => Z.land (Z.shiftr v (8 * Z.of_nat k)) 255) (seq 0 n).

(** [struct.pack('<h', v)] *)
Definition pack_h (v : Z) : result (list Z) :=
  if ((-32768 <=? v) && (v <=? 32767))%Z then Ok (le_bytes 2 v)
  else Err (StructError "short format requires -32768 <= number <= 32767").

(** [struct.pack('<H', v)] *)
Definition pack_H (v : Z) : result (list Z) :=
  if ((0 <=? v) && (v <=? 65535))%Z then Ok (le_bytes 2 v)
  else Err (StructError "ushort format requires 0 <= number <= 65535").

(** [struct.pack('<L', v)] *)
Definition pack_L (v : Z) : result (list Z) :=
  if ((0 <=? v) && (v <? 4294967296))%Z then Ok (le_bytes 4 v)
  else Err (StructError "argument out of range").

Definition bytes_of_string (s : string) : list Z :=
  map (fun a => Z.of_nat (nat_of_ascii a)) (list_ascii_of_string s).

(** ** The [wave] writer

    [wave.open(fio, 'wb')], [setnchannels], [setsampwidth], [setframerate],
    [writeframes(frames)] and [close()]: [setframerate] refuses a rate [<= 0];
    the header is [_write_header] of the standard library, written once with
    the final data length, followed by the frames. *)
Definition wave_write (nchannels sampwidth framerate : Z) (frames : list Z)
  : result (list Z) :=
  if (framerate <=? 0)%Z then Err (WaveError "bad frame rate")
  else
    let nframes := (Z.of_nat (length frames) / (nchannels * sampwidth))%Z in
    let datalength := (nframes * nchannels * sampwidth)%Z in
    riff_len <- pack_L (36 + datalength)%Z ;;
    fmt_len <- pack_L 16 ;;
    fmt_tag <- pack_H 1 ;;
    nch <- pack_H nchannels ;;
    rate <- pack_L framerate ;;
    byte_rate <- pack_L (nchannels * framerate * sampwidth)%Z ;;
    align <- pack_H (nchannels * sampwidth)%Z ;;
    bits <- pack_H (sampwidth * 8)%Z ;;
    data_len <- pack_L datalength ;;
    Ok (bytes_of_string "RIFF" ++ riff_len ++ bytes_of_string "WAVE"
        ++ bytes_of_string "fmt " ++ fmt_len ++ fmt_tag ++ nch ++ rate
        ++ byte_rate ++ align ++ bits ++ bytes_of_string "data" ++ data_len
        ++ frames).

(** ** [audio] *)

(** Python's [int(x)] on a float: truncation toward zero. *)
Definition py_int (q : Q) : Z := Z.quot (Qnum q) (Zpos (Qden q)).

(** [np.clip(x, -1, 1)] *)
Definition clip (x : Q) : Q := Qmin (Qmax x (-1)) 1.

Definition audio (tag : pystr) (tensor : ndarray) (sample_rate : Z)
  : result (list string * Summary) :=
  let tensor := squeeze tensor in
  match data tensor with
  | [] => Err (ValueError "zero-size array to reduction operation maximum which has no identity")
  | _ =>
      let '(printed, vals) :=
        if negb (Qle_bool (list_max (map Qabs (data tensor))) 1)
        then (["warning: audio amplitude out of range, auto clipped."%string],
              map clip (data tensor))
        else ([], data tensor) in
      if negb (Nat.eqb (ndim tensor) 1)
      then Err (AssertionError "input tensor should be 1 dimensional.")
      else
        let tensor_list := map (fun x => py_int (32767 * x)) vals in
        enc <- mapM pack_h tensor_list ;;
        audio_string <- wave_write 1 2 sample_rate (concat enc) ;;
        Ok (printed,
            [mk_value tag [] (AudioValue (mk_audio sample_rate 1 (length tensor_list)
                                                   audio_string "audio/wav"))])
  end.

(** ** [text] *)

(** [str.encode('utf_8')] of one code point; lone surrogates are refused. *)
Definition utf8_encode_char (c : N) : result (list Z) :=
  let z := Z.of_N c in
  if (z <? 128)%Z then Ok [z]
  else if (z <? 2048)%Z then
    Ok [Z.lor 192 (Z.shiftr z 6); Z.lor 128 (Z.land z 63)]
  else if (z <? 65536)%Z then
    if ((55296 <=? z) && (z <=? 57343))%Z
    then Err (ValueError "surrogates not allowed")
    else Ok [Z.lor 224 (Z.shiftr z 12); Z.lor 128 (Z.land (Z.shiftr z 6) 63);
             Z.lor 128 (Z.land z 63)]
  else if (z <=? 1114111)%Z then
    Ok [Z.lor 240 (Z.shiftr z 18); Z.lor 128 (Z.land (Z.shiftr z 12) 63);
        Z.lor 128 (Z.land (Z.shiftr z 6) 63); Z.lor 128 (Z.land z 63)]
  else Err (ValueError "code point out of range").

Definition utf8_encode (s : pystr) : result (list Z) :=
  bs <- mapM utf8_encode_char s ;; Ok (concat bs).

Definition text (tag : pystr) (txt : pystr) : result Summary :=
  let plugin := [mk_plugin "text" (TextPluginData 0)] in
  b <- utf8_encode txt ;;
  let tensor := mk_tensor "DT_STRING" (StringVal [b]) [1%nat] in
  Ok [mk_value (tag ++ pystr_of_string "/text_summary") plugin (TensorValue tensor)].

(** ** [custom_scalars]

    The layout dict is an association list in insertion order: category
    title to a list of chart title and [(chart type, tags)]. *)
Definition chart_of (chart_name : pystr) (meta : pystr * list pystr) : result Chart :=
  let '(kind, tags) := meta in
  if pystr_eqb kind (pystr_of_string "Margin")
  then match tags with
       | [v; lo; up] => Ok (MarginChart chart_name v lo up)
       | _ => Err (AssertionError "")
       end
  else Ok (MultilineChart chart_name tags).

Definition custom_scalars (layout : list (pystr * list (pystr * (pystr * list pystr))))
  : result Summary :=
  categories <- mapM (fun kv =>
                        let '(k, v) := kv in
                        charts <- mapM (fun cm => chart_of (fst cm) (snd cm)) v ;;
                        Ok (mk_category k charts)) layout ;;
  let smd := [mk_plugin "custom_scalars" NoContent] in
  let tensor := mk_tensor "DT_STRING" (LayoutVal categories) [] in
  Ok [mk_value (pystr_of_string "custom_scalars__config__") smd (TensorValue tensor)].

(** ** PR curves *)

(** The [weights] argument of [compute_curve]: [None], a Python float or a
    1-D array. *)
Inductive Weights :=
| NoWeights
| ScalarWeight (w : Q)
| ArrayWeights (w : list Q).

(** Element-wise product of two 1-D arrays under NumPy broadcasting. *)
Definition broadcast_mul (a b : list Q) : result (list Q) :=
  if Nat.eqb (length a) (length b) then Ok (map (fun p => fst p * snd p) (combine a b))
  else match a, b with
       | [x], _ => Ok (map (fun y => x * y) b)
       | _, [y] => Ok (map (fun x => x * y) a)
       | _, _ => Err (ValueError "operands could not be broadcast together")
       end.

Definition weight_mul (a : list Q) (w : Weights) : result (list Q) :=
  match w with
  | NoWeights => Ok (map (fun x => x * 1) a)
  | ScalarWeight q => Ok (map (fun x => x * q) a)
  | ArrayWeights l => broadcast_mul a l
  end.

(** [np.cumsum] *)
Fixpoint cumsum_from (acc : Q) (l : list Q) : list Q :=
  match l with
  | [] => []
  | x :: r => (acc + x) :: cumsum_from (acc + x) r
  end.

Definition cumsum (l : list Q) : list Q := cumsum_from 0 l.

(** [np.cumsum(x[::-1])[::-1]] *)
Definition rev_cumsum (l : list Q) : list Q := rev (cumsum (rev l)).

Definition MINIMUM_COUNT : Q := 1 # 10000000.

(** [compute_curve]: the six rows [tp, fp, tn, fn, precision, recall].
    [np.int32(np.floor(...))] is the floor; the int32 conversion is exact for
    predictions with [|p * (num_thresholds - 1)| < 2^31]. *)
Definition compute_curve (labels predictions : list Q) (num_thresholds : Z)
  (weights : Weights) : result (list (list Q)) :=
  let bucket_indices :=
    map (fun p => inject_Z (Qfloor (p * inject_Z (num_thresholds - 1)))) predictions in
  let float_labels := labels in
  let histogram_range := (0, inject_Z (num_thresholds - 1)) in
  tp_w <- weight_mul float_labels weights ;;
  tp_h <- np_histogram_weighted bucket_indices num_thresholds (Some histogram_range) tp_w ;;
  fp_w <- weight_mul (map (fun l => 1 - l) float_labels) weights ;;
  fp_h <- np_histogram_weighted bucket_indices num_thresholds (Some histogram_range) fp_w ;;
  let tp := rev_cumsum (fst tp_h) in
  let fp := rev_cumsum (fst fp_h) in
  let tn := map (fun x => hd 0 fp - x) fp in
  let fn := map (fun x => hd 0 tp - x) tp in
  let precision := map (fun p => fst p / Qmax MINIMUM_COUNT (fst p + snd p)) (combine tp fp) in
  let recall := map (fun p => fst p / Qmax MINIMUM_COUNT (fst p + snd p)) (combine tp fn) in
  Ok [tp; fp; tn; fn; precision; recall].

(** [np.stack] of 1-D arrays: they must share one length. *)
Definition np_stack (rows : list (list Q)) : result (list (list Q)) :=
  match rows with
  | [] => Err (ValueError "need at least one array to stack")
  | r :: _ =>
      if forallb (fun x => Nat.eqb (length x) (length r)) rows then Ok rows
      else Err (ValueError "all input arrays must have the same shape")
  end.

(** [PrCurvePluginData(version=0, num_thresholds=n)]: a [uint32] field. *)
Definition pr_curve_plugin (num_thresholds : Z) : result (list PluginData) :=
  if ((0 <=? num_thresholds) && (num_thresholds <? 4294967296))%Z
  then Ok [mk_plugin "pr_curves" (PrCurvePluginData 0 num_thresholds)]
  else Err (ValueError "Value out of range").

Definition pr_tensor (data : list (list Q)) : TensorProto :=
  mk_tensor "DT_FLOAT" (FloatVal (concat data)) [length data; length (hd [] data)].

Definition pr_curve_raw (tag : pystr) (tp fp tn fn precision recall : list Q)
  (num_thresholds : Z) : result Summary :=
  let num_thresholds := if (num_thresholds >? 127)%Z then 127%Z else num_thresholds in
  data <- np_stack [tp; fp; tn; fn; precision; recall] ;;
  smd <- pr_curve_plugin num_thresholds ;;
  Ok [mk_value tag smd (TensorValue (pr_tensor data))].

Definition pr_curve (tag : pystr) (labels predictions : list Q) (num_thresholds : Z)
  (weights : Weights) : result Summary :=
  let num_thresholds := Z.min num_thresholds 127 in
  data <- compute_curve labels predictions num_thresholds weights ;;
  smd <- pr_curve_plugin num_thresholds ;;
  Ok [mk_value tag smd (TensorValue (pr_tensor data))].

(** ** Predicates used in the statements *)

(** The weights broadcast against labels of length [n] element-wise. *)
Definition weights_fit (w : Weights) (n : nat) : bool :=
  match w with ArrayWeights l => Nat.eqb (length l) n | _ => true end.

Definition weights_nonneg (w : Weights) : Prop :=
  match w with
  | NoWeights => True
  | ScalarWeight q => 0 <= q
  | ArrayWeights l => Forall (Qle 0) l
  end.

Fixpoint non_increasing (l : list Q) : Prop :=
  match l with
  | x :: ((y :: _) as r) => y <= x /\ non_increasing r
  | _ => True
  end.

(** ** Reference definitions for the audio encoding

    Truncation toward zero, written with [Qfloor]; the value of a signed
    16-bit little-endian pair of bytes; and the canonical 44-byte header of a
    mono 16-bit PCM WAV file followed by its samples. *)
Definition trunc_toward_zero (q : Q) : Z :=
  if Qle_bool 0 q then Qfloor q else (- Qfloor (- q))%Z.

Definition s16le_decode (b0 b1 : Z) : Z :=
  let u := (b0 + 256 * b1)%Z in if (32768 <=? u)%Z then (u - 65536)%Z else u.

Definition wav_pcm16_mono (rate : Z) (samples : list Z) : list Z :=
  let datalen := (2 * Z.of_nat (length samples))%Z in
  bytes_of_string "RIFF" ++ le_bytes 4 (36 + datalen) ++ bytes_of_string "WAVE"
  ++ bytes_of_string "fmt " ++ le_bytes 4 16 ++ le_bytes 2 1 ++ le_bytes 2 1
  ++ le_bytes 4 rate ++ le_bytes 4 (2 * rate) ++ le_bytes 2 2 ++ le_bytes 2 16
  ++ bytes_of_string "data" ++ le_bytes 4 datalen
  ++ concat (map (le_bytes 2) samples).

(** The title of a chart, whichever kind it is. *)
Definition chart_title (c : Chart) : pystr :=
  match c with MarginChart t _ _ _ => t | MultilineChart t _ => t end.

(** Protobuf's check on a [string] field such as [Summary.Value.tag]: the
    value must encode as UTF-8, so a lone surrogate makes the assignment raise
    [ValueError].  The entry points above do not model this check on their
    tags; properties that depend on it assume it passes. *)
Definition utf8_encodable (s : pystr) : bool := negb (is_err (utf8_encode s)).


(** ** [np.histogram] in binary64

    The definitions above read NumPy's floats as exact rationals.  The ones
    below follow NumPy's own float64 computation of [make_histogram]'s
    buckets for an integer [bins]: [_get_outer_edges], [np.linspace], the
    equal-bins path of [np.histogram] with its edge corrections, and the
    trimming of [make_histogram].  Numbers are the IEEE 754 binary64 values of
    the Standard Library's [SpecFloat] (NaN and infinities included, rounding
    to nearest, ties to even). *)
















(** * Properties *)

(** ** Tag sanitisation *)

Section CleanTagProofs.

Variable is_word : N -> bool.
Hypothesis is_word_underscore : is_word 95%N = true.

Lemma pystr_eqb_eq (a b : pystr) : pystr_eqb a b = true -> a = b.
Proof.
  revert b; induction a as [|x a IH]; intros [|y b]; simpl; try discriminate; auto.
  intros H; apply andb_prop in H as [H1 H2].
  apply N.eqb_eq in H1; subst; f_equal; auto.
Qed.

Lemma clean_tag_eq (x : pystr) :
  clean_tag is_word x = lstrip 47 (invalid_sub is_word x).
Proof.
  unfold clean_tag.
  destruct (pystr_eqb (lstrip 47 (invalid_sub is_word x)) x) eqn:E; simpl; auto.
  symmetry; apply pystr_eqb_eq; exact E.
Qed.

Lemma invalid_sub_tag_chars (x : pystr) :
  forallb (is_tag_char is_word) (invalid_sub is_word x) = true.
Proof.
  induction x as [|c x IH]; simpl; auto.
  rewrite IH, andb_true_r.
  destruct (is_tag_char is_word c) eqn:E; auto.
  unfold is_tag_char; rewrite is_word_underscore; reflexivity.
Qed.

Lemma invalid_sub_id (x : pystr) :
  forallb (is_tag_char is_word) x = true -> invalid_sub is_word x = x.
Proof.
  induction x as [|c x IH]; simpl; auto.
  intros H; apply andb_prop in H as [H1 H2]; rewrite H1, IH; auto.
Qed.

Lemma lstrip_forallb (p : N -> bool) (ch : N) (x : pystr) :
  forallb p x = true -> forallb p (lstrip ch x) = true.
Proof.
  induction x as [|c x IH]; simpl; auto.
  intros H; destruct (c =? ch)%N; auto.
  apply andb_prop in H as [_ H2]; auto.
Qed.

Lemma lstrip_head (x : pystr) : starts_with_slash (lstrip 47 x) = false.
Proof.
  induction x as [|c x IH]; simpl; auto.
  destruct (c =? 47)%N eqn:E; simpl; auto.
Qed.

Lemma lstrip_id (x : pystr) : starts_with_slash x = false -> lstrip 47 x = x.
Proof.
  destruct x as [|c x]; simpl; auto.
  intros H; rewrite H; reflexivity.
Qed.

Lemma lstrip_idem (x : pystr) : lstrip 47 (lstrip 47 x) = lstrip 47 x.
Proof. apply lstrip_id, lstrip_head. Qed.

Lemma clean_tag_chars (x : pystr) :
  forallb (is_tag_char is_word) (clean_tag is_word x) = true.
Proof. rewrite clean_tag_eq; apply lstrip_forallb, invalid_sub_tag_chars. Qed.

Lemma clean_tag_idem (x : pystr) :
  clean_tag is_word (clean_tag is_word x) = clean_tag is_word x.
Proof.
  rewrite (clean_tag_eq (clean_tag is_word x)).
  rewrite invalid_sub_id by apply clean_tag_chars.
  rewrite clean_tag_eq; apply lstrip_idem.
Qed.

End CleanTagProofs.

Lemma ascii_agree_tag_char (is_word : N -> bool)
  (Hascii : forall c, (c < 128)%N -> is_word c = ascii_isword c) (c : N) :
  (c < 128)%N -> is_tag_char is_word c = ascii_tag_char c.
Proof. intros Hc; unfold is_tag_char, ascii_tag_char; rewrite Hascii; auto. Qed.

Lemma invalid_sub_ascii (is_word : N -> bool)
  (Hascii : forall c, (c < 128)%N -> is_word c = ascii_isword c) (x : pystr) :
  forallb (fun c => (c <? 128)%N) x = true ->
  forallb ascii_tag_char (invalid_sub is_word x) = true.
Proof.
  induction x as [|c x IH]; simpl; auto.
  intros H; apply andb_prop in H as [H1 H2]; rewrite IH by exact H2.
  apply N.ltb_lt in H1.
  rewrite (ascii_agree_tag_char is_word Hascii c H1).
  destruct (ascii_tag_char c) eqn:E; simpl; rewrite ?E; reflexivity.
Qed.

Lemma latin1_isword_ascii (c : N) : (c < 128)%N -> latin1_isword c = ascii_isword c.
Proof.
  intros Hc; unfold latin1_isword.
  repeat match goal with
         | |- context [(?a =? ?b)%N] =>
             let E := fresh in destruct (a =? b)%N eqn:E;
             [apply N.eqb_eq in E; lia | ]
         | |- context [(?a <=? ?b)%N] =>
             let E := fresh in destruct (a <=? b)%N eqn:E;
             [apply N.leb_le in E; try lia | ]
         end;
  rewrite ?orb_false_r; auto.
Qed.

(** C1 (amended): [_clean_tag] is idempotent; its result is the input with
    every character outside [[-/\w.]] replaced by ['_'] and leading ['/']
    stripped, it never starts with ['/'], every character of it is ['-'], ['/'],
    ['.'] or a word character of the regex engine, and for an ASCII input it
    only contains characters of [[A-Za-z0-9_.\-/]].  This holds for any word
    predicate agreeing with [\w] on ASCII, in particular for Python 3's
    Unicode [\w]. *)
Theorem clean_tag_normalizing (is_word : N -> bool)
  (Hascii : forall c, (c < 128)%N -> is_word c = ascii_isword c) (x : pystr) :
  clean_tag is_word (clean_tag is_word x) = clean_tag is_word x /\
  clean_tag is_word x = lstrip 47 (invalid_sub is_word x) /\
  forallb (is_tag_char is_word) (clean_tag is_word x) = true /\
  starts_with_slash (clean_tag is_word x) = false /\
  (forallb (fun c => (c <? 128)%N) x = true ->
   forallb ascii_tag_char (clean_tag is_word x) = true).
Proof.
  assert (Hu : is_word 95%N = true) by (rewrite Hascii by lia; reflexivity).
  split; [apply clean_tag_idem; exact Hu|].
  split; [apply clean_tag_eq|].
  split; [apply clean_tag_chars; exact Hu|].
  split; [rewrite clean_tag_eq; apply lstrip_head|].
  intros H; rewrite clean_tag_eq; apply lstrip_forallb, invalid_sub_ascii; auto.
Qed.

Lemma clean_tag_normalizing_witness :
  (forall c, (c < 128)%N -> latin1_isword c = ascii_isword c) /\
  clean_tag latin1_isword [47; 47; 97; 32; 233]%N = [97; 95; 233]%N /\
  clean_tag latin1_isword (clean_tag latin1_isword [47; 47; 97; 32; 233]%N)
  = clean_tag latin1_isword [47; 47; 97; 32; 233]%N.
Proof.
  split; [exact latin1_isword_ascii|].
  split; [vm_compute; reflexivity|].
  apply (clean_tag_normalizing latin1_isword latin1_isword_ascii [47; 47; 97; 32; 233]%N).
Defined.

(** C1 counterexample: under Python 3, the tag ["é"] (U+00E9, a word character
    of [\w]) is left unchanged by [_clean_tag], yet it is not in
    [[A-Za-z0-9_.\-/]]. *)
Lemma clean_tag_non_ascii_counterexample :
  clean_tag latin1_isword [233%N] = [233%N] /\
  ~ (forall x, forallb ascii_tag_char (clean_tag latin1_isword x) = true).
Proof.
  split; [vm_compute; reflexivity|].
  intros H; specialize (H [233%N]); vm_compute in H; discriminate.
Qed.

(** ** [np.histogram] with integer bins *)

Lemma fold_min_le (r : list Q) : forall x,
  fold_left Qmin r x <= x /\ (forall v, In v r -> fold_left Qmin r x <= v).
Proof.
  induction r as [|a r IH]; simpl; intros x.
  - split; [apply Qle_refl | tauto].
  - destruct (IH (Qmin x a)) as [H1 H2]; split.
    + eapply Qle_trans; [apply H1 | apply Q.le_min_l].
    + intros v [<- | Hv]; auto.
      eapply Qle_trans; [apply H1 | apply Q.le_min_r].
Qed.

Lemma fold_max_ge (r : list Q) : forall x,
  x <= fold_left Qmax r x /\ (forall v, In v r -> v <= fold_left Qmax r x).
Proof.
  induction r as [|a r IH]; simpl; intros x.
  - split; [apply Qle_refl | tauto].
  - destruct (IH (Qmax x a)) as [H1 H2]; split.
    + eapply Qle_trans; [apply Q.le_max_l | apply H1].
    + intros v [<- | Hv]; auto.
      eapply Qle_trans; [apply Q.le_max_r | apply H1].
Qed.

Lemma list_min_le (l : list Q) (v : Q) : In v l -> list_min l <= v.
Proof.
  destruct l as [|x r]; simpl; [tauto|].
  destruct (fold_min_le r x) as [H1 H2]; intros [<- | Hv]; auto.
Qed.

Lemma list_max_ge (l : list Q) (v : Q) : In v l -> v <= list_max l.
Proof.
  destruct l as [|x r]; simpl; [tauto|].
  destruct (fold_max_ge r x) as [H1 H2]; intros [<- | Hv]; auto.
Qed.

Lemma hist_range_spec (a : list Q) : a <> [] ->
  fst (hist_range a None) < snd (hist_range a None) /\
  (forall v, In v a -> fst (hist_range a None) <= v /\ v <= snd (hist_range a None)).
Proof.
  intros Ha; unfold hist_range.
  destruct a as [|x r] eqn:Ea; [congruence|]; rewrite <- Ea.
  assert (Hin : forall v, In v a -> list_min a <= v /\ v <= list_max a)
    by (intros; split; [apply list_min_le | apply list_max_ge]; auto).
  assert (Hle : list_min a <= list_max a).
  { destruct (Hin x) as [H1 H2]; [rewrite Ea; left; reflexivity|].
    eapply Qle_trans; eauto. }
  destruct (Qeq_bool (list_min a) (list_max a)) eqn:E; simpl.
  - split; [lra|]. intros v Hv; destruct (Hin v Hv); split; lra.
  - apply Qeq_bool_neq in E; split; [|exact Hin].
    destruct (Qle_lt_or_eq _ _ Hle); [assumption | contradiction].
Qed.

Lemma bin_index_lt (n : nat) (first last v : Q) :
  (0 < n)%nat -> first < last -> first <= v -> v <= last ->
  (bin_index n first last v < n)%nat.
Proof.
  intros Hn Hfl H1 H2; unfold bin_index.
  set (B := inject_Z (Z.of_nat n)).
  set (f := (v - first) * (B / (last - first))).
  assert (HB : 0 <= B) by (unfold B, Qle; simpl; lia).
  assert (HD : 0 < last - first) by lra.
  assert (Hf0 : 0 <= f).
  { unfold f; apply Qmult_le_0_compat; [lra|].
    apply Qle_shift_div_l; [exact HD | lra]. }
  assert (HfB : f <= B).
  { apply (Qmult_lt_0_le_reg_r _ _ (last - first) HD).
    assert (Hfe : f * (last - first) == (v - first) * B)
      by (unfold f; field; intro Hz; lra).
    rewrite Hfe, (Qmult_comm B); apply Qmult_le_compat_r; lra. }
  assert (Hfl0 : (0 <= Qfloor f)%Z).
  { assert (Hlt := Qlt_floor f).
    destruct (Z_lt_le_dec (Qfloor f) 0) as [Hneg|]; auto.
    exfalso; assert (Hq : inject_Z (Qfloor f + 1) <= inject_Z 0)
      by (rewrite <- Zle_Qle; lia).
    change (inject_Z 0) with 0 in Hq; lra. }
  assert (Hfln : (Qfloor f <= Z.of_nat n)%Z).
  { rewrite Zle_Qle; eapply Qle_trans; [apply Qfloor_le | exact HfB]. }
  destruct (Nat.eqb (Z.to_nat (Qfloor f)) n) eqn:E.
  - lia.
  - apply Nat.eqb_neq in E; lia.
Qed.

Lemma add_at_length {A} (plus : A -> A -> A) (l : list A) (i : nat) (w : A) :
  length (add_at plus l i w) = length l.
Proof.
  revert i; induction l as [|x l IH]; intros [|i]; simpl; auto.
Qed.

Lemma add_at_sum (l : list nat) (i : nat) :
  (i < length l)%nat -> list_sum (add_at Nat.add l i 1%nat) = S (list_sum l).
Proof.
  revert i; induction l as [|x l IH]; intros [|i] Hi; simpl in *; try lia.
  rewrite IH by lia; lia.
Qed.

Lemma count_fold_length (n : nat) (first last : Q) (vals : list Q) :
  forall acc, length (fold_left (count_step n first last) vals acc) = length acc.
Proof.
  induction vals as [|v vals IH]; intros acc; simpl; auto.
  rewrite IH; unfold count_step; destruct (in_range first last v); auto.
  apply add_at_length.
Qed.

Lemma count_fold_sum (n : nat) (first last : Q) (vals : list Q) :
  (0 < n)%nat -> first < last ->
  (forall v, In v vals -> first <= v /\ v <= last) ->
  forall acc, length acc = n ->
  list_sum (fold_left (count_step n first last) vals acc) = (length vals + list_sum acc)%nat.
Proof.
  intros Hn Hfl; induction vals as [|v vals IH]; intros Hin acc Hacc; simpl; auto.
  destruct (Hin v (or_introl eq_refl)) as [H1 H2].
  assert (Hr : in_range first last v = true)
    by (unfold in_range; apply andb_true_intro; split; apply Qle_bool_iff; auto).
  unfold count_step at 2; rewrite Hr.
  rewrite IH; [| intros; apply Hin; right; auto | rewrite add_at_length; auto].
  rewrite add_at_sum; [lia|].
  rewrite Hacc; apply bin_index_lt; auto.
Qed.

Lemma list_sum_repeat0 (n : nat) : list_sum (repeat 0%nat n) = 0%nat.
Proof. induction n; simpl; auto. Qed.

Lemma bin_edges_length (n : nat) (first last : Q) :
  length (bin_edges n first last) = S n.
Proof. unfold bin_edges; rewrite length_map, length_seq; reflexivity. Qed.

Lemma np_histogram_lengths (a : list Q) (bins : Z) (range : option (Q * Q))
  (counts : list nat) (edges : list Q) :
  np_histogram a bins range = Ok (counts, edges) ->
  length edges = S (length counts).
Proof.
  unfold np_histogram, bind.
  destruct (histogram_checks a bins range) as [[[n first] last]|]; [|discriminate].
  intros H; injection H as <- <-.
  rewrite count_fold_length, repeat_length, bin_edges_length; reflexivity.
Qed.

Lemma np_histogram_auto (a : list Q) (bins : Z) :
  a <> [] -> (1 <= bins)%Z ->
  exists first last,
    first < last /\
    np_histogram a bins None
    = Ok (fold_left (count_step (Z.to_nat bins) first last) a (repeat 0%nat (Z.to_nat bins)),
          bin_edges (Z.to_nat bins) first last) /\
    list_sum (fold_left (count_step (Z.to_nat bins) first last) a
                        (repeat 0%nat (Z.to_nat bins))) = length a.
Proof.
  intros Ha Hb.
  destruct (hist_range_spec a Ha) as [Hlt Hin].
  exists (fst (hist_range a None)), (snd (hist_range a None)).
  split; [exact Hlt|]; split.
  - unfold np_histogram, histogram_checks, bind.
    replace (bins <? 1)%Z with false by (symmetry; apply Z.ltb_ge; lia).
    destruct (hist_range a None) as [first last]; simpl in *.
    destruct (Qlt_le_dec last first); [lra | reflexivity].
  - rewrite count_fold_sum; auto.
    + rewrite list_sum_repeat0; lia.
    + lia.
    + apply repeat_length.
Qed.

(** ** The trimming loops of [make_histogram] *)

Lemma first_pos_some {A} (p : A -> bool) (l : list A) (i : nat) (d : A) :
  first_pos p l = Some i ->
  (i < length l)%nat /\ p (nth i l d) = true /\
  (forall k, (k < i)%nat -> p (nth k l d) = false).
Proof.
  revert i; induction l as [|x l IH]; intros i; simpl; [discriminate|].
  destruct (p x) eqn:Px.
  - intros H; injection H as <-; repeat split; auto; [lia | intros; lia].
  - destruct (first_pos p l) as [i'|] eqn:E; simpl; [|discriminate].
    intros H; injection H as <-.
    destruct (IH i' eq_refl) as [H1 [H2 H3]]; repeat split; auto; [lia|].
    intros [|k] Hk; auto; apply H3; lia.
Qed.

Lemma first_pos_none {A} (p : A -> bool) (l : list A) :
  first_pos p l = None -> forall x, In x l -> p x = false.
Proof.
  induction l as [|y l IH]; simpl; [tauto|].
  destruct (p y) eqn:Py; [discriminate|].
  destruct (first_pos p l); simpl; [discriminate|].
  intros _ x [<- | Hx]; auto.
Qed.

Lemma first_pos_char {A} (p : A -> bool) (l : list A) (i : nat) (d : A) :
  (i < length l)%nat -> p (nth i l d) = true ->
  (forall k, (k < i)%nat -> p (nth k l d) = false) ->
  first_pos p l = Some i.
Proof.
  revert i; induction l as [|x l IH]; intros i Hi Hp Hk; simpl in *; [lia|].
  destruct i as [|i].
  - rewrite Hp; reflexivity.
  - rewrite (Hk 0%nat ltac:(lia)).
    rewrite (IH i); auto; [lia|].
    intros k Hk'; apply (Hk (S k)); lia.
Qed.

Lemma last_pos_some {A} (p : A -> bool) (l : list A) (k : nat) (d : A) :
  first_pos p (rev l) = Some k ->
  (length l - S k < length l)%nat /\ p (nth (length l - S k) l d) = true /\
  (forall m, (length l - S k < m < length l)%nat -> p (nth m l d) = false).
Proof.
  intros H; destruct (first_pos_some p (rev l) k d H) as [H1 [H2 H3]].
  rewrite length_rev in H1; rewrite rev_nth in H2 by lia.
  repeat split; auto; [lia|].
  intros m Hm.
  specialize (H3 (length l - S m)%nat ltac:(lia)).
  rewrite rev_nth in H3 by lia.
  replace (length l - S (length l - S m))%nat with m in H3 by lia; exact H3.
Qed.

Lemma last_pos_char {A} (p : A -> bool) (l : list A) (j : nat) (d : A) :
  (j < length l)%nat -> p (nth j l d) = true ->
  (forall m, (j < m < length l)%nat -> p (nth m l d) = false) ->
  first_pos p (rev l) = Some (length l - S j)%nat.
Proof.
  intros Hj Hp Hm; apply (first_pos_char _ _ _ d).
  - rewrite ?length_rev; lia.
  - rewrite rev_nth by lia.
    replace (length l - S (length l - S j))%nat with j by lia; exact Hp.
  - intros k Hk; rewrite rev_nth by lia; apply Hm; lia.
Qed.

Lemma py_slice_length {A} (l : list A) (s e : nat) :
  length (py_slice l s e) = Nat.min (e - s) (length l - s).
Proof. unfold py_slice; rewrite length_firstn, length_skipn; reflexivity. Qed.

Lemma skipn_nth_cons {A} (l : list A) (n : nat) (d : A) :
  (n < length l)%nat -> skipn n l = nth n l d :: skipn (S n) l.
Proof.
  revert n; induction l as [|x l IH]; intros [|n] Hn; simpl in *; try lia; auto.
  apply IH; lia.
Qed.

Lemma nonzero_ltb (c : nat) : c <> 0%nat -> Nat.ltb 0 c = true.
Proof. intros; apply Nat.ltb_lt; lia. Qed.

Lemma zero_ltb (c : nat) : c = 0%nat -> Nat.ltb 0 c = false.
Proof. intros ->; reflexivity. Qed.

Lemma make_histogram_ok (values : ndarray) (bins : Z) (counts : list nat)
  (edges : list Q) (i j : nat) :
  size values <> 0%nat ->
  np_histogram (data values) bins None = Ok (counts, edges) ->
  (i < length counts)%nat -> nth i counts 0%nat <> 0%nat ->
  (forall k, (k < i)%nat -> nth k counts 0%nat = 0%nat) ->
  (j < length counts)%nat -> nth j counts 0%nat <> 0%nat ->
  (forall m, (j < m < length counts)%nat -> nth m counts 0%nat = 0%nat) ->
  make_histogram values bins =
  Ok (mk_histo (list_min (data values)) (list_max (data values))
               (length (data values)) (qsum (data values))
               (dot (data values) (data values))
               (py_slice (tl edges) (trim_start i) (S j))
               (py_slice counts (trim_start i) (S j))).
Proof.
  intros Hsz Hnp Hi Hni Hbi Hj Hnj Haj.
  assert (Hij : (i <= j)%nat).
  { destruct (Nat.le_gt_cases i j) as [|Hlt]; auto.
    exfalso; apply Hni, Haj; lia. }
  assert (Hf : first_pos (fun c => Nat.ltb 0 c) counts = Some i).
  { apply (first_pos_char _ _ _ 0%nat); auto.
    - apply nonzero_ltb; auto.
    - intros k Hk; apply zero_ltb; auto. }
  assert (Hl : first_pos (fun c => Nat.ltb 0 c) (rev counts) = Some (length counts - S j)%nat).
  { apply (last_pos_char _ _ _ 0%nat); auto.
    - apply nonzero_ltb; auto.
    - intros m Hm; apply zero_ltb; auto. }
  assert (He := np_histogram_lengths _ _ _ _ _ Hnp).
  unfold make_histogram.
  rewrite (proj2 (Nat.eqb_neq _ _) Hsz), Hnp; cbn [bind].
  rewrite Hf, Hl; cbn [option_map].
  replace (length counts - (length counts - S j))%nat with (S j) by lia.
  fold (trim_start i).
  assert (Hs : (trim_start i <= i)%nat) by (unfold trim_start; lia).
  rewrite (proj2 (Nat.eqb_neq (length (py_slice counts (trim_start i) (S j))) 0)).
  2: { rewrite py_slice_length; lia. }
  rewrite (proj2 (Nat.eqb_neq (length (py_slice (tl edges) (trim_start i) (S j))) 0)).
  2: { rewrite py_slice_length.
       destruct edges as [|e edges]; cbn [length] in He; [lia|].
       cbn [tl]; injection He as He; rewrite He; lia. }
  reflexivity.
Qed.

Lemma trim_guard (counts : list nat) (i j : nat) :
  (i <= j)%nat -> (j < length counts)%nat ->
  (forall k, (k < i)%nat -> nth k counts 0%nat = 0%nat) ->
  py_slice counts (trim_start i) (S j)
  = repeat 0%nat (Nat.min i 1) ++ py_slice counts i (S j).
Proof.
  intros Hij Hj Hz; unfold trim_start, py_slice.
  destruct i as [|i].
  - reflexivity.
  - replace (Z.to_nat (Z.max 0 (Z.of_nat (S i) - 1))) with i by lia.
    rewrite (skipn_nth_cons counts i 0%nat) by lia.
    rewrite Hz by lia.
    replace (S j - i)%nat with (S (S j - S i)) by lia.
    replace (Nat.min (S i) 1) with 1%nat by lia; reflexivity.
Qed.

(** C2: for a non-empty array, once [np.histogram] has produced [counts] and
    [edges], [make_histogram] slices both the counts and the upper limits
    [edges[1:]] to [[start:end]], where [start = max(0, i - 1)] for the index
    [i] of the first non-zero count and [end] is one past the index [j] of the
    last non-zero count; the result is at most one empty guard bucket
    followed by [counts[i:j+1]]. *)
Theorem make_histogram_trim (values : ndarray) (bins : Z) (counts : list nat)
  (edges : list Q) (i j : nat) :
  size values <> 0%nat ->
  np_histogram (data values) bins None = Ok (counts, edges) ->
  (i < length counts)%nat -> nth i counts 0%nat <> 0%nat ->
  (forall k, (k < i)%nat -> nth k counts 0%nat = 0%nat) ->
  (j < length counts)%nat -> nth j counts 0%nat <> 0%nat ->
  (forall m, (j < m < length counts)%nat -> nth m counts 0%nat = 0%nat) ->
  exists h, make_histogram values bins = Ok h /\
    h_bucket h = py_slice counts (Z.to_nat (Z.max 0 (Z.of_nat i - 1)%Z)) (S j) /\
    h_bucket_limit h = py_slice (tl edges) (Z.to_nat (Z.max 0 (Z.of_nat i - 1)%Z)) (S j) /\
    h_bucket h = repeat 0%nat (Nat.min i 1) ++ py_slice counts i (S j).
Proof.
  intros Hsz Hnp Hi Hni Hbi Hj Hnj Haj.
  assert (Hij : (i <= j)%nat).
  { destruct (Nat.le_gt_cases i j) as [|Hlt]; auto.
    exfalso; apply Hni, Haj; lia. }
  eexists; split; [apply (make_histogram_ok values bins counts edges i j); eauto|].
  cbn [h_bucket h_bucket_limit].
  split; [reflexivity|]; split; [reflexivity|].
  apply trim_guard; auto.
Qed.

Lemma make_histogram_trim_witness :
  exists h, make_histogram hist_example 5 = Ok h /\
    h_bucket h = py_slice [3; 0; 0; 0; 3]%nat 0 5 /\
    h_bucket_limit h = py_slice (tl (bin_edges 5 1 5)) 0 5 /\
    h_bucket h = [] ++ py_slice [3; 0; 0; 0; 3]%nat 0 5.
Proof.
  apply (make_histogram_trim hist_example 5 [3; 0; 0; 0; 3]%nat (bin_edges 5 1 5) 0 4).
  - vm_compute; discriminate.
  - vm_compute; reflexivity.
  - simpl; lia.
  - vm_compute; discriminate.
  - intros k Hk; lia.
  - simpl; lia.
  - vm_compute; discriminate.
  - intros m Hm; simpl in Hm; lia.
Defined.








Lemma list_sum_all_zero (l : list nat) :
  (forall x, In x l -> Nat.ltb 0 x = false) -> list_sum l = 0%nat.
Proof.
  induction l as [|x l IH]; simpl; intros H; auto.
  assert (Hx := H x (or_introl eq_refl)); apply Nat.ltb_ge in Hx.
  rewrite IH by auto; lia.
Qed.

Lemma py_slice_split {A} (l : list A) (s e : nat) :
  (s <= e)%nat -> l = firstn s l ++ py_slice l s e ++ skipn e l.
Proof.
  intros Hse; unfold py_slice.
  replace e with ((e - s) + s)%nat at 2 by lia.
  rewrite <- skipn_skipn, firstn_skipn, firstn_skipn; reflexivity.
Qed.

Lemma firstn_zeros (s : nat) (l : list nat) :
  (forall k, (k < s)%nat -> nth k l 0%nat = 0%nat) -> Forall (eq 0%nat) (firstn s l).
Proof.
  revert l; induction s as [|s IH]; intros l H; simpl; auto.
  destruct l as [|x l]; simpl; auto.
  constructor; [symmetry; apply (H 0%nat); lia|].
  apply IH; intros k Hk; apply (H (S k)); lia.
Qed.

Lemma skipn_zeros (e : nat) (l : list nat) :
  (forall m, (e <= m < length l)%nat -> nth m l 0%nat = 0%nat) -> Forall (eq 0%nat) (skipn e l).
Proof.
  revert l; induction e as [|e IH]; intros l H; simpl.
  - apply Forall_forall; intros x Hx.
    destruct (In_nth l x 0%nat Hx) as [m [Hm <-]]; symmetry; apply H; lia.
  - destruct l as [|x l]; simpl; auto.
    apply IH; intros m Hm; apply (H (S m)); simpl; lia.
Qed.

Lemma make_histogram_int_bins (values : ndarray) (bins : Z) :
  length (data values) = size values -> size values <> 0%nat -> (1 <= bins)%Z ->
  exists counts first last i j,
    first < last /\
    np_histogram (data values) bins None
      = Ok (counts, bin_edges (Z.to_nat bins) first last) /\
    length counts = Z.to_nat bins /\ list_sum counts = size values /\
    (i <= j)%nat /\ (j < length counts)%nat /\
    (forall k, (k < i)%nat -> nth k counts 0%nat = 0%nat) /\
    (forall m, (j < m < length counts)%nat -> nth m counts 0%nat = 0%nat) /\
    make_histogram values bins =
    Ok (mk_histo (list_min (data values)) (list_max (data values))
                 (length (data values)) (qsum (data values))
                 (dot (data values) (data values))
                 (py_slice (tl (bin_edges (Z.to_nat bins) first last)) (trim_start i) (S j))
                 (py_slice counts (trim_start i) (S j))).
Proof.
  intros Hwf Hsz Hb.
  assert (Hne : data values <> []) by (intros E; rewrite E in Hwf; simpl in Hwf; lia).
  destruct (np_histogram_auto (data values) bins Hne Hb) as [first [last [Hfl [Hnp Hsum]]]].
  set (counts := fold_left (count_step (Z.to_nat bins) first last) (data values)
                           (repeat 0%nat (Z.to_nat bins))) in *.
  assert (Hlen : length counts = Z.to_nat bins)
    by (unfold counts; rewrite count_fold_length, repeat_length; reflexivity).
  destruct (first_pos (fun c => Nat.ltb 0 c) counts) as [i|] eqn:Ef.
  2: { exfalso; pose proof (list_sum_all_zero _ (first_pos_none _ _ Ef)); lia. }
  destruct (first_pos (fun c => Nat.ltb 0 c) (rev counts)) as [k|] eqn:El.
  2: { exfalso; pose proof (first_pos_none _ _ El) as El'.
       assert (H0 : list_sum counts = 0%nat)
         by (apply list_sum_all_zero; intros x Hx; apply El', in_rev; rewrite rev_involutive; exact Hx).
       lia. }
  destruct (first_pos_some _ _ _ 0%nat Ef) as [Hi [Hni Hbi]].
  destruct (last_pos_some _ _ _ 0%nat El) as [Hj [Hnj Haj]].
  set (j := (length counts - S k)%nat) in *.
  apply Nat.ltb_lt in Hni; apply Nat.ltb_lt in Hnj.
  assert (Hbi' : forall k', (k' < i)%nat -> nth k' counts 0%nat = 0%nat)
    by (intros k' Hk'; specialize (Hbi k' Hk'); apply Nat.ltb_ge in Hbi; lia).
  assert (Haj' : forall m, (j < m < length counts)%nat -> nth m counts 0%nat = 0%nat)
    by (intros m Hm; specialize (Haj m Hm); apply Nat.ltb_ge in Haj; lia).
  assert (Hij : (i <= j)%nat).
  { destruct (Nat.le_gt_cases i j) as [|Hlt]; auto.
    specialize (Haj' i ltac:(lia)); lia. }
  exists counts, first, last, i, j.
  do 2 (split; [assumption|]).
  split; [exact Hlen|]; split; [rewrite Hsum; lia|].
  do 4 (split; [assumption|]).
  apply (make_histogram_ok values bins counts _ i j); auto; lia.
Qed.


(** [make_histogram] only returns for a non-empty array and [bins >= 1]. *)
Lemma make_histogram_ok_pre (values : ndarray) (bins : Z) (h : HistogramProto) :
  make_histogram values bins = Ok h -> size values <> 0%nat /\ (1 <= bins)%Z.
Proof.
  unfold make_histogram; intros H.
  destruct (Nat.eqb (size values) 0) eqn:E; [discriminate H|].
  apply Nat.eqb_neq in E; split; [exact E|].
  revert H; unfold np_histogram, histogram_checks.
  destruct (Z.ltb_spec bins 1) as [Hb|Hb]; [cbn [bind]; intros H; discriminate H|].
  intros _; exact Hb.
Qed.





(** C4: the statistics [min], [max], [num], [sum] and [sum_squares] of a
    successful [make_histogram] are those of the whole flattened input, not of
    the trimmed buckets; on [[1,1,1,5,5,5]] with 5 bins they are [min = 1],
    [max = 5], [num = 6], [sum = 18], and the trimmed buckets are
    [[3,0,0,0,3]] with upper limits [[1.8, 2.6, 3.4, 4.2, 5]]: the three 1s lie
    in the first bucket and the three 5s in the last. *)
Theorem make_histogram_stats :
  (forall values bins h, make_histogram values bins = Ok h ->
     h_min h = list_min (data values) /\ h_max h = list_max (data values) /\
     h_num h = length (data values) /\ h_sum h = qsum (data values) /\
     h_sum_squares h = dot (data values) (data values)) /\
  (exists h, make_histogram hist_example 5 = Ok h /\
     h_min h == 1 /\ h_max h == 5 /\ h_num h = 6%nat /\ h_sum h == 18 /\
     h_bucket h = [3; 0; 0; 0; 3]%nat /\
     map Qred (h_bucket_limit h) = [9 # 5; 13 # 5; 17 # 5; 21 # 5; 5]).
Proof.
  split.
  - intros values bins h; unfold make_histogram.
    destruct (Nat.eqb (size values) 0); [discriminate|].
    destruct (np_histogram (data values) bins None) as [[counts edges]|]; cbn [bind];
      [|discriminate].
    destruct (first_pos _ counts); [|discriminate]; cbn [option_map].
    destruct (first_pos _ (rev counts)); [|discriminate]; cbn [option_map].
    match goal with |- context [if ?c then _ else _] => destruct c end; [discriminate|].
    intros H; injection H as <-; cbn; repeat split.
  - eexists; split; [vm_compute; reflexivity|].
    repeat split; vm_compute; reflexivity.
Qed.

(** ** Tags of the emitted records *)

Lemma mapM_ok_length {A B} (f : A -> result B) (l : list A) (ys : list B) :
  mapM f l = Ok ys -> length ys = length l.
Proof.
  revert ys; induction l as [|x l IH]; intros ys; simpl.
  - intros H; injection H as <-; reflexivity.
  - destruct (f x); simpl; [|discriminate].
    destruct (mapM f l) eqn:E; simpl; [|discriminate].
    intros H; injection H as <-; simpl; f_equal; auto.
Qed.

Lemma is_err_mapM {A B} (f : A -> result B) (l : list A) :
  is_err (mapM f l) = existsb (fun x => is_err (f x)) l.
Proof.
  induction l as [|x l IH]; simpl; auto.
  destruct (f x); simpl; auto.
  destruct (mapM f l); simpl in *; auto.
Qed.

(** [image_boxes] never returns: [draw_boxes] raises [NameError]. *)
Lemma image_boxes_raises (cast_u8 : Q -> Z) (png_encode : nat -> nat -> nat -> list Z -> Q -> list Z)
  (tag : pystr) (ti tb : ndarray) (rescale : Q) :
  is_err (image_boxes cast_u8 png_encode tag ti tb rescale) = true.
Proof.
  unfold image_boxes, make_image, draw_boxes.
  destruct (box_columns tb); simpl; auto.
  destruct (shape ti) as [|? [|? [|? [|]]]]; reflexivity.
Qed.

(** C10: [audio], [image_boxes], [pr_curve], [pr_curve_raw] and [text] emit
    the caller's tag unchanged ([text] with the suffix ["/text_summary"]);
    [scalar], [histogram], [image] and [video] emit the sanitized tag.
    ([image_boxes] never emits a record: see [image_boxes_raises].) *)
Theorem entry_point_tags (is_word : N -> bool) (cast_u8 : Q -> Z)
  (png_encode : nat -> nat -> nat -> list Z -> Q -> list Z)
  (gif_encode : nat -> nat -> nat -> nat -> list Z -> Z -> list Z) (tag : pystr) :
  (forall tensor sr printed s, audio tag tensor sr = Ok (printed, s) ->
     map v_tag s = [tag]) /\
  (forall ti tb rescale s, image_boxes cast_u8 png_encode tag ti tb rescale = Ok s ->
     map v_tag s = [tag]) /\
  (forall labels preds n w s, pr_curve tag labels preds n w = Ok s ->
     map v_tag s = [tag]) /\
  (forall tp fp tn fn pr rc n s, pr_curve_raw tag tp fp tn fn pr rc n = Ok s ->
     map v_tag s = [tag]) /\
  (forall txt s, text tag txt = Ok s ->
     map v_tag s = [tag ++ pystr_of_string "/text_summary"]) /\
  (forall x s, scalar is_word tag x = Ok s -> map v_tag s = [clean_tag is_word tag]) /\
  (forall values bins s, histogram is_word tag values bins = Ok s ->
     map v_tag s = [clean_tag is_word tag]) /\
  (forall tensor rescale s, image is_word cast_u8 png_encode tag tensor rescale = Ok s ->
     map v_tag s = [clean_tag is_word tag]) /\
  (forall env tensor fps printed s,
     video is_word cast_u8 gif_encode env tag tensor fps = Ok (printed, s) ->
     map v_tag s = [clean_tag is_word tag]).
Proof.
  repeat split.
  - intros tensor sr printed s; unfold audio.
    destruct (data (squeeze tensor)); [discriminate|].
    match goal with |- context [let '(_, _) := ?c in _] => destruct c as [p vals] end.
    destruct (negb _); [discriminate|].
    destruct (mapM pack_h _); simpl; [|discriminate].
    destruct (wave_write _ _ _ _); simpl; [|discriminate].
    intros H; injection H as _ <-; reflexivity.
  - intros ti tb rescale s H.
    pose proof (image_boxes_raises cast_u8 png_encode tag ti tb rescale) as E.
    rewrite H in E; discriminate.
  - intros labels preds n w s; unfold pr_curve.
    destruct (compute_curve _ _ _ _); simpl; [|discriminate].
    destruct (pr_curve_plugin _); simpl; [|discriminate].
    intros H; injection H as <-; reflexivity.
  - intros tp fp tn fn pr rc n s; unfold pr_curve_raw.
    destruct (np_stack _); simpl; [|discriminate].
    destruct (pr_curve_plugin _); simpl; [|discriminate].
    intros H; injection H as <-; reflexivity.
  - intros txt s; unfold text.
    destruct (utf8_encode txt); simpl; [|discriminate].
    intros H; injection H as <-; reflexivity.
  - intros x s; unfold scalar.
    destruct (negb _); [discriminate|].
    destruct (data x) as [|? [|]]; try discriminate.
    intros H; injection H as <-; reflexivity.
  - intros values bins s; unfold histogram.
    destruct (make_histogram values bins); simpl; [|discriminate].
    intros H; injection H as <-; reflexivity.
  - intros tensor rescale s; unfold image.
    destruct (make_image _ _ _ _ _); simpl; [|discriminate].
    intros H; injection H as <-; reflexivity.
  - intros env tensor fps printed s; unfold video.
    destruct (make_video _ _ _ _ _); simpl; [|discriminate].
    match goal with |- context [let '(_, _) := ?c in _] => destruct c end.
    intros H; injection H as _ <-; reflexivity.
Qed.

(** ** Video without moviepy *)

(** C9: when [moviepy] or [moviepy.editor] cannot be imported, [make_video]
    prints one diagnostic line and returns [None] without raising, and
    [video] returns normally a record with the sanitized tag and no image. *)
Theorem video_without_moviepy (is_word : N -> bool) (cast_u8 : Q -> Z)
  (gif_encode : nat -> nat -> nat -> nat -> list Z -> Z -> list Z)
  (env : Env) (tag : pystr) (tensor : ndarray) (fps : Z) :
  has_moviepy env = false \/ has_moviepy_editor env = false ->
  exists msg : string,
    make_video gif_encode env (shape tensor)
      (to_uint8 cast_u8 tensor (calc_scale_factor tensor)) fps = Ok ([msg], None) /\
    video is_word cast_u8 gif_encode env tag tensor fps
      = Ok ([msg], [mk_value (clean_tag is_word tag) [] NoValue]).
Proof.
  intros Henv.
  assert (Hmv : exists msg, make_video gif_encode env (shape tensor)
                  (to_uint8 cast_u8 tensor (calc_scale_factor tensor)) fps = Ok ([msg], None)).
  { unfold make_video.
    destruct (has_moviepy env); simpl; [|eexists; reflexivity].
    destruct Henv as [H | H]; [discriminate|]; rewrite H; simpl; eexists; reflexivity. }
  destruct Hmv as [msg Hmv]; exists msg; split; [exact Hmv|].
  unfold video; rewrite Hmv; reflexivity.
Qed.

Lemma video_without_moviepy_witness :
  exists msg : string,
    make_video (fun _ _ _ _ _ _ => []) (mk_env false false)
      (shape (mk_ndarray DT_uint8 [1; 2; 2; 3]%nat []))
      (to_uint8 (fun _ => 0%Z) (mk_ndarray DT_uint8 [1; 2; 2; 3]%nat [])
                (calc_scale_factor (mk_ndarray DT_uint8 [1; 2; 2; 3]%nat []))) 4
    = Ok ([msg], None) /\
    video latin1_isword (fun _ => 0%Z) (fun _ _ _ _ _ _ => []) (mk_env false false)
      (pystr_of_string "/clip") (mk_ndarray DT_uint8 [1; 2; 2; 3]%nat []) 4
    = Ok ([msg], [mk_value (clean_tag latin1_isword (pystr_of_string "/clip")) [] NoValue]).
Proof.
  apply video_without_moviepy; left; reflexivity.
Defined.

(** ** PR curves *)

Lemma wcount_fold_length (n : nat) (first last : Q) (pairs : list (Q * Q)) :
  forall acc, length (fold_left (wcount_step n first last) pairs acc) = length acc.
Proof.
  induction pairs as [|[v x] pairs IH]; intros acc; simpl; auto.
  rewrite IH; destruct (in_range first last v); auto; apply add_at_length.
Qed.

Lemma add_at_nonneg (l : list Q) (i : nat) (w : Q) :
  Forall (Qle 0) l -> 0 <= w -> Forall (Qle 0) (add_at Qplus l i w).
Proof.
  revert i; induction l as [|x l IH]; intros [|i] Hl Hw; simpl; auto;
    inversion Hl; subst; constructor; auto; lra.
Qed.

Lemma wcount_fold_nonneg (n : nat) (first last : Q) (pairs : list (Q * Q)) :
  (forall p, In p pairs -> 0 <= snd p) ->
  forall acc, Forall (Qle 0) acc ->
  Forall (Qle 0) (fold_left (wcount_step n first last) pairs acc).
Proof.
  induction pairs as [|[v x] pairs IH]; intros Hp acc Hacc; simpl; auto.
  apply IH; [intros; apply Hp; right; auto|].
  unfold wcount_step; destruct (in_range first last v); auto.
  apply add_at_nonneg; auto; apply (Hp (v, x)); left; reflexivity.
Qed.

Lemma repeat_zero_nonneg (n : nat) : Forall (Qle 0) (repeat 0 n).
Proof. induction n; simpl; constructor; auto; apply Qle_refl. Qed.

Lemma np_histogram_weighted_ok (a w : list Q) (bins : Z) (r0 r1 : Q) :
  length w = length a -> (1 <= bins)%Z -> r0 <= r1 ->
  exists counts edges,
    np_histogram_weighted a bins (Some (r0, r1)) w = Ok (counts, edges) /\
    length counts = Z.to_nat bins /\
    (Forall (Qle 0) w -> Forall (Qle 0) counts).
Proof.
  intros Hlen Hb Hr.
  unfold np_histogram_weighted.
  rewrite Hlen, Nat.eqb_refl; cbn [negb].
  unfold histogram_checks, bind.
  replace (bins <? 1)%Z with false by (symmetry; apply Z.ltb_ge; lia).
  unfold hist_range.
  set (fl := if Qeq_bool r0 r1 then (r0 - (1 # 2), r1 + (1 # 2)) else (r0, r1)).
  assert (Hfl : fst fl <= snd fl) by (unfold fl; destruct (Qeq_bool r0 r1); simpl; lra).
  destruct fl as [first last]; simpl in Hfl.
  destruct (Qlt_le_dec last first); [lra|].
  eexists; eexists; split; [reflexivity|]; split.
  - rewrite wcount_fold_length, repeat_length; reflexivity.
  - intros Hw; apply wcount_fold_nonneg; [|apply repeat_zero_nonneg].
    intros [v x] Hp; apply in_combine_r in Hp; simpl.
    rewrite Forall_forall in Hw; auto.
Qed.

Lemma weight_mul_ok (a : list Q) (w : Weights) :
  weights_fit w (length a) = true ->
  exists r, weight_mul a w = Ok r /\ length r = length a /\
    (Forall (Qle 0) a -> weights_nonneg w -> Forall (Qle 0) r).
Proof.
  intros Hfit; destruct w as [|q|l]; simpl in *.
  - eexists; split; [reflexivity|]; rewrite length_map; split; auto.
    intros Ha _; apply Forall_map; eapply Forall_impl; [|exact Ha].
    simpl; intros x Hx; lra.
  - eexists; split; [reflexivity|]; rewrite length_map; split; auto.
    intros Ha Hq; apply Forall_map; eapply Forall_impl; [|exact Ha].
    simpl; intros x Hx; apply Qmult_le_0_compat; auto.
  - apply Nat.eqb_eq in Hfit; unfold broadcast_mul.
    rewrite Hfit, Nat.eqb_refl.
    eexists; split; [reflexivity|].
    rewrite length_map, length_combine, Hfit, Nat.min_id; split; auto.
    intros Ha Hl; apply Forall_forall; intros y Hy.
    apply in_map_iff in Hy as [[x z] [<- Hxz]]; simpl.
    apply Qmult_le_0_compat.
    + rewrite Forall_forall in Ha; apply Ha; eapply in_combine_l; eauto.
    + rewrite Forall_forall in Hl; apply Hl; eapply in_combine_r; eauto.
Qed.

Lemma cumsum_from_app (a : Q) (l1 l2 : list Q) :
  cumsum_from a (l1 ++ l2) = cumsum_from a l1 ++ cumsum_from (fold_left Qplus l1 a) l2.
Proof.
  revert a; induction l1 as [|x l1 IH]; intros a; simpl; auto.
  rewrite IH; reflexivity.
Qed.

Lemma length_cumsum_from (a : Q) (l : list Q) : length (cumsum_from a l) = length l.
Proof. revert a; induction l; intros; simpl; auto. Qed.

Lemma length_rev_cumsum (l : list Q) : length (rev_cumsum l) = length l.
Proof.
  unfold rev_cumsum, cumsum; rewrite length_rev, length_cumsum_from, length_rev; reflexivity.
Qed.

Lemma rev_cumsum_cons (x : Q) (l : list Q) :
  rev_cumsum (x :: l) = (fold_left Qplus (rev l) 0 + x) :: rev_cumsum l.
Proof.
  unfold rev_cumsum, cumsum; simpl.
  rewrite cumsum_from_app, rev_app_distr; reflexivity.
Qed.

Lemma rev_cumsum_props (l : list Q) :
  Forall (Qle 0) l ->
  non_increasing (rev_cumsum l) /\ Forall (Qle 0) (rev_cumsum l) /\
  0 <= fold_left Qplus (rev l) 0 /\
  (forall y, hd_error (rev_cumsum l) = Some y -> y = fold_left Qplus (rev l) 0).
Proof.
  induction l as [|x l IH]; intros Hl.
  - repeat split; [constructor | apply Qle_refl | discriminate].
  - inversion Hl as [|? ? Hx Hl']; subst.
    destruct (IH Hl') as [H1 [H2 [H3 H4]]].
    rewrite rev_cumsum_cons.
    assert (Hs : fold_left Qplus (rev l ++ [x]) 0 = fold_left Qplus (rev l) 0 + x)
      by (rewrite fold_left_app; reflexivity).
    repeat split.
    + destruct (rev_cumsum l) as [|y r] eqn:E; simpl; auto.
      split; auto.
      rewrite (H4 y eq_refl); lra.
    + constructor; auto; lra.
    + simpl; rewrite Hs; lra.
    + simpl; intros y Hy; injection Hy as <-; rewrite Hs; reflexivity.
Qed.

Lemma compute_curve_ok (labels preds : list Q) (n : Z) (w : Weights) :
  (1 <= n)%Z -> length labels = length preds -> weights_fit w (length labels) = true ->
  exists tpb fpb tn fn pr rc,
    compute_curve labels preds n w = Ok [rev_cumsum tpb; rev_cumsum fpb; tn; fn; pr; rc] /\
    length tpb = Z.to_nat n /\ length fpb = Z.to_nat n /\ length tn = Z.to_nat n /\
    length fn = Z.to_nat n /\ length pr = Z.to_nat n /\ length rc = Z.to_nat n /\
    (Forall (fun l => l == 0 \/ l == 1) labels -> weights_nonneg w ->
     Forall (Qle 0) tpb /\ Forall (Qle 0) fpb).
Proof.
  intros Hn Hlp Hfit.
  set (idx := map (fun p => inject_Z (Qfloor (p * inject_Z (n - 1)))) preds).
  assert (Hr : 0 <= inject_Z (n - 1)) by (change 0 with (inject_Z 0); rewrite <- Zle_Qle; lia).
  destruct (weight_mul_ok labels w Hfit) as [tpw [Htpw [Htpl Htpn]]].
  assert (Hfit' : weights_fit w (length (map (fun l => 1 - l) labels)) = true)
    by (rewrite length_map; exact Hfit).
  destruct (weight_mul_ok _ w Hfit') as [fpw [Hfpw [Hfpl Hfpn]]].
  rewrite length_map in Hfpl.
  destruct (np_histogram_weighted_ok idx tpw n 0 (inject_Z (n - 1)))
    as [tpb [tpe [Htph [Htpb Htpnn]]]]; auto.
  { unfold idx; rewrite length_map; lia. }
  destruct (np_histogram_weighted_ok idx fpw n 0 (inject_Z (n - 1)))
    as [fpb [fpe [Hfph [Hfpb Hfpnn]]]]; auto.
  { unfold idx; rewrite length_map; lia. }
  unfold compute_curve; fold idx.
  rewrite Htpw; cbn [bind]; rewrite Htph; cbn [bind].
  rewrite Hfpw; cbn [bind]; rewrite Hfph; cbn [bind fst].
  do 6 eexists; split; [reflexivity|].
  rewrite !length_map, !length_combine, !length_map, !length_rev_cumsum, Htpb, Hfpb.
  repeat split; try lia.
  - rename H into Hlab; rename H0 into Hw; apply Htpnn, Htpn; auto.
    eapply Forall_impl; [|exact Hlab]; simpl; intros l [Hl | Hl]; rewrite Hl; lra.
  - rename H into Hlab; rename H0 into Hw; apply Hfpnn, Hfpn; auto.
    apply Forall_map; eapply Forall_impl; [|exact Hlab]; simpl; intros l [Hl | Hl];
      rewrite Hl; lra.
Qed.

Lemma np_stack_six (tp fp tn fn pr rc : list Q) :
  length fp = length tp -> length tn = length tp -> length fn = length tp ->
  length pr = length tp -> length rc = length tp ->
  np_stack [tp; fp; tn; fn; pr; rc] = Ok [tp; fp; tn; fn; pr; rc].
Proof.
  intros H1 H2 H3 H4 H5; unfold np_stack; simpl.
  rewrite H1, H2, H3, H4, H5, Nat.eqb_refl; reflexivity.
Qed.

(** C6. A [num_thresholds] above 127 is replaced by 127 without error in both
    entry points, and the plugin metadata records 127.  The number of columns
    of the emitted tensor is 127 only for [pr_curve], which computes the curve
    itself with 127 thresholds; [pr_curve_raw] stacks the arrays it is given,
    so its tensor has as many columns as those arrays have entries. *)
Theorem pr_curve_clamp (tag : pystr) (n : Z) (Hn : (127 < n)%Z) :
  (forall tp fp tn fn pr rc : list Q,
     length fp = length tp -> length tn = length tp -> length fn = length tp ->
     length pr = length tp -> length rc = length tp ->
     pr_curve_raw tag tp fp tn fn pr rc n =
     Ok [mk_value tag [mk_plugin "pr_curves" (PrCurvePluginData 0 127)]
           (TensorValue (mk_tensor "DT_FLOAT" (FloatVal (concat [tp; fp; tn; fn; pr; rc]))
                           [6%nat; length tp]))]) /\
  (forall (labels preds : list Q) (w : Weights),
     length labels = length preds -> weights_fit w (length labels) = true ->
     exists rows,
       pr_curve tag labels preds n w =
       Ok [mk_value tag [mk_plugin "pr_curves" (PrCurvePluginData 0 127)]
             (TensorValue (mk_tensor "DT_FLOAT" (FloatVal (concat rows)) [6%nat; 127%nat]))] /\
       length rows = 6%nat /\ Forall (fun r => length r = 127%nat) rows).
Proof.
  assert (Hgt : (n >? 127)%Z = true) by (apply Z.gtb_lt; lia).
  split.
  - intros tp fp tn fn pr rc H1 H2 H3 H4 H5.
    unfold pr_curve_raw; rewrite Hgt, np_stack_six by assumption; reflexivity.
  - intros labels preds w Hlp Hfit.
    unfold pr_curve.
    replace (Z.min n 127) with 127%Z by lia.
    destruct (compute_curve_ok labels preds 127 w ltac:(lia) Hlp Hfit)
      as [tpb [fpb [tn [fn [pr [rc [Hc [L1 [L2 [L3 [L4 [L5 [L6 _]]]]]]]]]]]]].
    rewrite Hc; cbn [bind].
    exists [rev_cumsum tpb; rev_cumsum fpb; tn; fn; pr; rc].
    split; [|split; [reflexivity|]].
    + unfold pr_tensor; cbn [hd length]; rewrite length_rev_cumsum, L1; reflexivity.
    + repeat constructor; rewrite ?length_rev_cumsum; assumption.
Qed.

Lemma pr_curve_clamp_witness :
  pr_curve_raw (pystr_of_string "pr") [1; 0] [0; 1] [0; 0] [0; 0] [1; 0] [1; 1] 200 =
  Ok [mk_value (pystr_of_string "pr") [mk_plugin "pr_curves" (PrCurvePluginData 0 127)]
        (TensorValue (mk_tensor "DT_FLOAT"
           (FloatVal (concat [[1; 0]; [0; 1]; [0; 0]; [0; 0]; [1; 0]; [1; 1]])) [6%nat; 2%nat]))].
Proof.
  exact (proj1 (pr_curve_clamp (pystr_of_string "pr") 200 ltac:(lia))
           [1; 0] [0; 1] [0; 0] [0; 0] [1; 0] [1; 1]
           eq_refl eq_refl eq_refl eq_refl eq_refl).
Defined.

(** C6, counterexample to the raw entry point using 127 thresholds: with
    [num_thresholds = 200] and arrays of 200 entries, [pr_curve_raw] records
    127 in the metadata but emits a tensor with 200 columns. *)
Lemma pr_curve_raw_200_counterexample :
  let r := repeat 0 200 in
  pr_curve_raw [] r r r r r r 200 =
  Ok [mk_value [] [mk_plugin "pr_curves" (PrCurvePluginData 0 127)]
        (TensorValue (mk_tensor "DT_FLOAT" (FloatVal (concat [r; r; r; r; r; r]))
                        [6%nat; 200%nat]))].
Proof. vm_compute. reflexivity. Qed.

(** C7. With labels in {0, 1} and non-negative weights (or none, meaning 1.0),
    the [tp] and [fp] rows of [compute_curve] have [num_thresholds] entries,
    are non-increasing, and are non-negative. *)
Theorem compute_curve_monotone (labels preds : list Q) (n : Z) (w : Weights)
  (Hn : (1 <= n)%Z) (Hlp : length labels = length preds)
  (Hfit : weights_fit w (length labels) = true)
  (Hlab : Forall (fun l => l == 0 \/ l == 1) labels) (Hw : weights_nonneg w) :
  exists tp fp tn fn pr rc,
    compute_curve labels preds n w = Ok [tp; fp; tn; fn; pr; rc] /\
    length tp = Z.to_nat n /\ length fp = Z.to_nat n /\
    non_increasing tp /\ Forall (Qle 0) tp /\
    non_increasing fp /\ Forall (Qle 0) fp.
Proof.
  destruct (compute_curve_ok labels preds n w Hn Hlp Hfit)
    as [tpb [fpb [tn [fn [pr [rc [Hc [L1 [L2 [_ [_ [_ [_ Hnn]]]]]]]]]]]]].
  destruct (Hnn Hlab Hw) as [Htp Hfp].
  destruct (rev_cumsum_props tpb Htp) as [T1 [T2 _]].
  destruct (rev_cumsum_props fpb Hfp) as [F1 [F2 _]].
  exists (rev_cumsum tpb), (rev_cumsum fpb), tn, fn, pr, rc.
  rewrite !length_rev_cumsum; auto 10.
Qed.

Lemma compute_curve_monotone_witness :
  exists tp fp tn fn pr rc,
    compute_curve [1; 0; 1; 1] [9 # 10; 2 # 10; 5 # 10; 1] 5 NoWeights =
      Ok [tp; fp; tn; fn; pr; rc] /\
    length tp = Z.to_nat 5 /\ length fp = Z.to_nat 5 /\
    non_increasing tp /\ Forall (Qle 0) tp /\
    non_increasing fp /\ Forall (Qle 0) fp.
Proof.
  apply (compute_curve_monotone [1; 0; 1; 1] [9 # 10; 2 # 10; 5 # 10; 1] 5 NoWeights).
  - lia.
  - reflexivity.
  - reflexivity.
  - repeat constructor; (left; reflexivity) || (right; reflexivity).
  - exact I.
Defined.

Lemma py_int_trunc (q : Q) : py_int q = trunc_toward_zero q.
Proof.
  destruct q as [a d]; unfold py_int, trunc_toward_zero; cbn [Qnum Qden].
  destruct (Qle_bool 0 (a # d)) eqn:E.
  - apply Qle_bool_iff in E; unfold Qle in E; simpl in E.
    unfold Qfloor; apply Z.quot_div_nonneg; lia.
  - assert (Ha : (a < 0)%Z).
    { destruct (Z.lt_ge_cases a 0) as [H|H]; auto.
      exfalso; assert (0 <= a # d) by (unfold Qle; simpl; lia).
      apply Qle_bool_iff in H0; congruence. }
    unfold Qopp, Qfloor; cbn [Qnum Qden].
    rewrite <- (Z.opp_involutive a) at 1.
    rewrite Z.quot_opp_l by lia.
    rewrite Z.quot_div_nonneg by lia; reflexivity.
Qed.

Lemma trunc_range (q : Q) :
  -32767 <= q <= 32767 -> (-32767 <= trunc_toward_zero q <= 32767)%Z.
Proof.
  intros [H1 H2]; unfold trunc_toward_zero.
  destruct (Qle_bool 0 q) eqn:E.
  - apply Qle_bool_iff in E.
    pose proof (Qfloor_resp_le _ _ E); pose proof (Qfloor_resp_le _ _ H2).
    change (Qfloor 0) with 0%Z in H; change (Qfloor 32767) with 32767%Z in H0; lia.
  - assert (Hq : 0 <= - q).
    { destruct (Qlt_le_dec q 0) as [H|H]; [lra|].
      apply Qle_bool_iff in H; congruence. }
    assert (Hq' : - q <= 32767) by lra.
    pose proof (Qfloor_resp_le _ _ Hq); pose proof (Qfloor_resp_le _ _ Hq').
    change (Qfloor 0) with 0%Z in H; change (Qfloor 32767) with 32767%Z in H0; lia.
Qed.

Lemma clip_range (x : Q) : -1 <= clip x <= 1.
Proof.
  unfold clip; split.
  - apply Q.min_glb; [apply Q.le_max_r | lra].
  - apply Q.le_min_r.
Qed.

Lemma clip_id (x : Q) : -1 <= x <= 1 -> clip x = x.
Proof.
  intros [H1 H2]; unfold clip, Qmin, Qmax, GenericMinMax.gmin, GenericMinMax.gmax.
  destruct (Qcompare x (-1)) eqn:E1.
  - destruct (Qcompare x 1) eqn:E2; auto.
    rewrite <- Qgt_alt in E2; lra.
  - rewrite <- Qlt_alt in E1; lra.
  - destruct (Qcompare x 1) eqn:E2; auto.
    rewrite <- Qgt_alt in E2; lra.
Qed.

Lemma le_bytes_2_decode (s : Z) :
  (-32768 <= s <= 32767)%Z ->
  s16le_decode (nth 0 (le_bytes 2 s) 0%Z) (nth 1 (le_bytes 2 s) 0%Z) = s.
Proof.
  intros Hs; unfold le_bytes, s16le_decode; cbn [map seq nth Z.of_nat].
  change (8 * 0)%Z with 0%Z; change (8 * 1)%Z with 8%Z.
  change 255%Z with (Z.ones 8).
  rewrite !Z.land_ones by lia.
  rewrite Z.shiftr_0_r, Z.shiftr_div_pow2 by lia.
  change (2 ^ 8)%Z with 256%Z.
  change (2 ^ (8 * Z.pos (Pos.of_succ_nat 0)))%Z with 256%Z.
  destruct (32768 <=? s mod 256 + 256 * ((s / 256) mod 256))%Z eqn:E;
    [apply Z.leb_le in E | apply Z.leb_gt in E];
    Z.div_mod_to_equations; lia.
Qed.

Lemma mapM_pack_h (l : list Z) :
  Forall (fun s => -32768 <= s <= 32767)%Z l ->
  mapM pack_h l = Ok (map (le_bytes 2) l).
Proof.
  induction l as [|s l IH]; intros Hl; cbn [mapM map]; auto.
  inversion Hl as [|? ? Hs Hl']; subst.
  unfold pack_h at 1.
  replace ((-32768 <=? s) && (s <=? 32767))%Z with true
    by (symmetry; apply andb_true_iff; split; apply Z.leb_le; lia).
  cbn [bind]; rewrite IH by assumption; reflexivity.
Qed.

Lemma length_concat_le_bytes_2 (l : list Z) :
  length (concat (map (le_bytes 2) l)) = (2 * length l)%nat.
Proof.
  induction l as [|s l IH]; cbn [map concat]; auto.
  rewrite length_app, IH; unfold le_bytes; cbn [length map seq]; lia.
Qed.

Lemma pack_L_ok (v : Z) : (0 <= v < 4294967296)%Z -> pack_L v = Ok (le_bytes 4 v).
Proof.
  intros Hv; unfold pack_L.
  replace ((0 <=? v) && (v <? 4294967296))%Z with true; auto.
  symmetry; apply andb_true_iff; split; [apply Z.leb_le | apply Z.ltb_lt]; lia.
Qed.

Lemma pack_H_ok (v : Z) : (0 <= v <= 65535)%Z -> pack_H v = Ok (le_bytes 2 v).
Proof.
  intros Hv; unfold pack_H.
  replace ((0 <=? v) && (v <=? 65535))%Z with true; auto.
  symmetry; apply andb_true_iff; split; apply Z.leb_le; lia.
Qed.

Lemma wave_write_pcm16_mono (rate : Z) (samples : list Z) :
  (0 < rate)%Z -> (2 * rate < 4294967296)%Z ->
  (36 + 2 * Z.of_nat (length samples) < 4294967296)%Z ->
  wave_write 1 2 rate (concat (map (le_bytes 2) samples)) =
  Ok (wav_pcm16_mono rate samples).
Proof.
  intros H1 H2 H3; unfold wave_write.
  rewrite length_concat_le_bytes_2.
  replace (rate <=? 0)%Z with false by (symmetry; apply Z.leb_gt; lia).
  replace ((Z.of_nat (2 * length samples) / (1 * 2)) * 1 * 2)%Z
    with (2 * Z.of_nat (length samples))%Z
    by (rewrite Nat2Z.inj_mul; change (Z.of_nat 2) with 2%Z; change (1 * 2)%Z with 2%Z;
        rewrite (Z.mul_comm 2 (Z.of_nat _)), Z.div_mul by lia; lia).
  replace (1 * rate * 2)%Z with (2 * rate)%Z by lia.
  replace (1 * 2)%Z with 2%Z by reflexivity.
  replace (2 * 8)%Z with 16%Z by reflexivity.
  rewrite !pack_L_ok, !pack_H_ok by lia.
  reflexivity.
Qed.

Lemma audio_ok_wav (tag : pystr) (T : ndarray) (sr : Z)
  (Hdim : ndim (squeeze T) = 1%nat) (Hne : data T <> [])
  (Hsr : (0 < sr)%Z) (Hsr2 : (2 * sr < 4294967296)%Z)
  (Hlen : (36 + 2 * Z.of_nat (length (data T)) < 4294967296)%Z) :
  let samples := map (fun x => trunc_toward_zero (32767 * clip x)) (data T) in
  (exists printed,
     audio tag T sr =
     Ok (printed, [mk_value tag []
                     (AudioValue (mk_audio sr 1 (length samples)
                                    (wav_pcm16_mono sr samples) "audio/wav"))])) /\
  Forall (fun s => -32767 <= s <= 32767)%Z samples.
Proof.
  intros samples.
  assert (Hrange : Forall (fun s => -32767 <= s <= 32767)%Z samples).
  { unfold samples; apply Forall_forall; intros s Hs.
    apply in_map_iff in Hs as [x [<- _]].
    apply trunc_range; pose proof (clip_range x); lra. }
  split; [|exact Hrange].
  unfold audio; cbv zeta.
  change (data (squeeze T)) with (data T).
  destruct (data T) as [|x0 r] eqn:Ed; [congruence|].
  assert (Hvals : exists printed vals,
    (if negb (Qle_bool (list_max (map Qabs (x0 :: r))) 1)
     then (["warning: audio amplitude out of range, auto clipped."%string],
           map clip (x0 :: r))
     else ([], x0 :: r)) = (printed, vals) /\
    map (fun x => py_int (32767 * x)) vals = samples).
  { unfold samples; rewrite ?Ed.
    destruct (negb (Qle_bool (list_max (map Qabs (x0 :: r))) 1)) eqn:Ew.
    - do 2 eexists; split; [reflexivity|].
      rewrite map_map; apply map_ext; intros x; apply py_int_trunc.
    - do 2 eexists; split; [reflexivity|].
      apply negb_false_iff, Qle_bool_iff in Ew.
      apply map_ext_in; intros x Hx.
      assert (Hax : Qabs x <= 1).
      { eapply Qle_trans; [apply list_max_ge, in_map; exact Hx | exact Ew]. }
      apply Qabs_Qle_condition in Hax.
      rewrite clip_id by exact Hax; apply py_int_trunc. }
  destruct Hvals as [printed [vals [Hpv Hmap]]].
  rewrite Hpv; cbv beta iota.
  rewrite Hdim; cbn [Nat.eqb negb].
  rewrite Hmap, mapM_pack_h
    by (eapply Forall_impl; [|exact Hrange]; simpl; intros; lia).
  cbn [bind].
  rewrite wave_write_pcm16_mono; auto.
  - exists printed; reflexivity.
  - unfold samples; rewrite length_map; exact Hlen.
Qed.

(** C8. For a 1-D (after [squeeze]), non-empty input, a positive sample rate
    and a file size within the 32-bit WAV fields, [audio] succeeds and emits
    one mono record with content type [audio/wav] whose bytes are the 44-byte
    PCM header followed by each sample as a signed 16-bit little-endian pair.
    Each sample is [32767 * x] (after clipping to [-1, 1]) truncated toward
    zero: [int(32767 * 0.5) = 16383] and [int(32767 * -0.5) = -16383], neither
    rounded to nearest (16384) nor floored (-16384). *)
Theorem audio_pcm16_truncating (tag : pystr) (T : ndarray) (sr : Z)
  (Hdim : ndim (squeeze T) = 1%nat) (Hne : data T <> [])
  (Hsr : (0 < sr)%Z) (Hsr2 : (2 * sr < 4294967296)%Z)
  (Hlen : (36 + 2 * Z.of_nat (length (data T)) < 4294967296)%Z) :
  let samples := map (fun x => trunc_toward_zero (32767 * clip x)) (data T) in
  (exists printed,
     audio tag T sr =
     Ok (printed, [mk_value tag []
                     (AudioValue (mk_audio sr 1 (length samples)
                                    (wav_pcm16_mono sr samples) "audio/wav"))])) /\
  Forall (fun s => -32767 <= s <= 32767)%Z samples /\
  map (fun b => s16le_decode (nth 0 b 0%Z) (nth 1 b 0%Z)) (map (le_bytes 2) samples)
    = samples /\
  py_int (32767 * (1 # 2)) = 16383%Z /\ py_int (32767 * (-1 # 2)) = (-16383)%Z.
Proof.
  intros samples.
  destruct (audio_ok_wav tag T sr Hdim Hne Hsr Hsr2 Hlen) as [Hok Hrange].
  split; [exact Hok|split; [exact Hrange | split; [|split; reflexivity]]].
  rewrite map_map; etransitivity; [|apply map_id].
  apply map_ext_in; intros s Hs.
  apply le_bytes_2_decode.
  rewrite Forall_forall in Hrange; specialize (Hrange s Hs); lia.
Qed.

Lemma audio_pcm16_truncating_witness :
  let samples := map (fun x => trunc_toward_zero (32767 * clip x)) [1 # 2; -1 # 2; 2] in
  (exists printed,
     audio (pystr_of_string "a") (mk_ndarray DT_float32 [3%nat] [1 # 2; -1 # 2; 2]) 8000 =
     Ok (printed, [mk_value (pystr_of_string "a") []
                     (AudioValue (mk_audio 8000 1 (length samples)
                                    (wav_pcm16_mono 8000 samples) "audio/wav"))])) /\
  Forall (fun s => -32767 <= s <= 32767)%Z samples /\
  map (fun b => s16le_decode (nth 0 b 0%Z) (nth 1 b 0%Z)) (map (le_bytes 2) samples)
    = samples /\
  py_int (32767 * (1 # 2)) = 16383%Z /\ py_int (32767 * (-1 # 2)) = (-16383)%Z.
Proof.
  apply (audio_pcm16_truncating (pystr_of_string "a")
           (mk_ndarray DT_float32 [3%nat] [1 # 2; -1 # 2; 2]) 8000).
  - reflexivity.
  - discriminate.
  - lia.
  - lia.
  - simpl; lia.
Defined.



Lemma is_err_histogram (is_word : N -> bool) (name : pystr) (v : ndarray) (bins : Z) :
  length (data v) = size v -> (1 <= bins)%Z ->
  is_err (histogram is_word name v bins) = Nat.eqb (size v) 0.
Proof.
  intros Hwf Hb; unfold histogram.
  destruct (Nat.eqb (size v) 0) eqn:E.
  - unfold make_histogram; rewrite E; reflexivity.
  - apply Nat.eqb_neq in E.
    destruct (make_histogram_int_bins v bins Hwf E Hb)
      as [counts [first [last [i [j [_ [_ [_ [_ [_ [_ [_ [_ Hm]]]]]]]]]]]]].
    rewrite Hm; reflexivity.
Qed.



Lemma is_err_audio (tag : pystr) (T : ndarray) (sr : Z) :
  data T <> [] -> (0 < sr)%Z -> (2 * sr < 4294967296)%Z ->
  (36 + 2 * Z.of_nat (length (data T)) < 4294967296)%Z ->
  is_err (audio tag T sr) = negb (Nat.eqb (ndim (squeeze T)) 1).
Proof.
  intros Hne Hsr Hsr2 Hlen.
  destruct (Nat.eqb (ndim (squeeze T)) 1) eqn:E.
  - apply Nat.eqb_eq in E.
    destruct (audio_ok_wav tag T sr E Hne Hsr Hsr2 Hlen) as [[printed Hok] _].
    rewrite Hok; reflexivity.
  - unfold audio; cbv zeta.
    change (data (squeeze T)) with (data T).
    destruct (data T) as [|x0 r]; [congruence|].
    destruct (if negb (Qle_bool (list_max (map Qabs (x0 :: r))) 1)
              then (["warning: audio amplitude out of range, auto clipped."%string],
                    map clip (x0 :: r))
              else ([], x0 :: r)) as [printed vals].
    rewrite E; reflexivity.
Qed.




Lemma existsb_ext_eq {A} (f g : A -> bool) (l : list A) :
  (forall x, f x = g x) -> existsb f l = existsb g l.
Proof. intros H; induction l as [|x l IH]; simpl; auto; rewrite H, IH; reflexivity. Qed.






(** * Further properties of the module *)

(** ** Helpers *)

Lemma fold_min_in (r : list Q) : forall x, In (fold_left Qmin r x) (x :: r).
Proof.
  induction r as [|a r IH]; simpl; intros x; [auto|].
  destruct (IH (Qmin x a)) as [H | H].
  - rewrite <- H; unfold Qmin, GenericMinMax.gmin; destruct (x ?= a); auto.
  - auto.
Qed.

Lemma fold_max_in (r : list Q) : forall x, In (fold_left Qmax r x) (x :: r).
Proof.
  induction r as [|a r IH]; simpl; intros x; [auto|].
  destruct (IH (Qmax x a)) as [H | H].
  - rewrite <- H; unfold Qmax, GenericMinMax.gmax; destruct (x ?= a); auto.
  - auto.
Qed.

Lemma list_min_in (l : list Q) : l <> [] -> In (list_min l) l.
Proof. destruct l as [|x r]; [congruence|]; intros _; apply fold_min_in. Qed.

Lemma list_max_in (l : list Q) : l <> [] -> In (list_max l) l.
Proof. destruct l as [|x r]; [congruence|]; intros _; apply fold_max_in. Qed.

Lemma list_sum_zeros (l : list nat) : Forall (eq 0%nat) l -> list_sum l = 0%nat.
Proof. induction 1 as [|x l Hx _ IH]; simpl; auto; rewrite <- Hx, IH; reflexivity. Qed.

Lemma wf_nonempty (values : ndarray) :
  length (data values) = size values -> size values <> 0%nat -> data values <> [].
Proof. intros Hwf Hsz E; rewrite E in Hwf; simpl in Hwf; lia. Qed.

(** ** Tag sanitisation *)

(** [_clean_tag] leaves a name unchanged exactly when all its characters are
    allowed and it does not start with ['/']; otherwise the name changes (and
    the change is logged). *)
Theorem clean_tag_fixed_points (is_word : N -> bool) (Hu : is_word 95%N = true)
  (x : pystr) :
  clean_tag is_word x = x <->
  forallb (is_tag_char is_word) x = true /\ starts_with_slash x = false.
Proof.
  split.
  - intros H; rewrite <- H; split.
    + apply clean_tag_chars; exact Hu.
    + rewrite clean_tag_eq; apply lstrip_head.
  - intros [H1 H2]; rewrite clean_tag_eq, invalid_sub_id, lstrip_id; auto.
Qed.

Lemma clean_tag_fixed_points_witness :
  clean_tag latin1_isword (pystr_of_string "loss/train") = pystr_of_string "loss/train" <->
  forallb (is_tag_char latin1_isword) (pystr_of_string "loss/train") = true /\
  starts_with_slash (pystr_of_string "loss/train") = false.
Proof. apply clean_tag_fixed_points; reflexivity. Defined.

(** ** Histograms *)

(** Whenever [make_histogram] returns (a non-empty array of finite values and
    [bins >= 1]), the trimmed buckets still count every element: their sum is
    the number of elements, [num]. *)
Theorem make_histogram_bucket_total (values : ndarray) (bins : Z) (h : HistogramProto) :
  length (data values) = size values -> make_histogram values bins = Ok h ->
  list_sum (h_bucket h) = size values /\ h_num h = size values.
Proof.
  intros Hwf Hmk.
  destruct (make_histogram_ok_pre values bins h Hmk) as [Hsz Hb].
  destruct (make_histogram_int_bins values bins Hwf Hsz Hb)
    as [counts [first [last [i [j [Hfl [Hnp [Hlen [Hsum [Hij [Hj [Hbi [Haj Hmh]]]]]]]]]]]]].
  rewrite Hmk in Hmh; injection Hmh as Hh; subst h; cbn [h_bucket h_num].
  split; [|exact Hwf].
  assert (Hs : (trim_start i <= i)%nat) by (unfold trim_start; lia).
  rewrite (py_slice_split counts (trim_start i) (S j)) in Hsum by lia.
  rewrite !list_sum_app in Hsum.
  rewrite (list_sum_zeros (firstn (trim_start i) counts)) in Hsum
    by (apply firstn_zeros; intros k Hk; apply Hbi; lia).
  rewrite (list_sum_zeros (skipn (S j) counts)) in Hsum
    by (apply skipn_zeros; intros m Hm; apply Haj; lia).
  lia.
Qed.

Lemma make_histogram_bucket_total_witness :
  exists h, make_histogram hist_example 5 = Ok h /\
    list_sum (h_bucket h) = size hist_example /\ h_num h = size hist_example.
Proof.
  destruct (make_histogram hist_example 5) as [h|e] eqn:E; [|discriminate].
  exists h; split; [reflexivity|].
  exact (make_histogram_bucket_total hist_example 5 h eq_refl E).
Defined.

(** The [min] and [max] of a histogram are elements of the input, and every
    input value lies between them. *)
Theorem make_histogram_min_max (values : ndarray) (bins : Z) (h : HistogramProto) :
  data values <> [] -> make_histogram values bins = Ok h ->
  In (h_min h) (data values) /\ In (h_max h) (data values) /\
  (forall v, In v (data values) -> h_min h <= v /\ v <= h_max h).
Proof.
  intros Hne Hm.
  assert (E : h_min h = list_min (data values) /\ h_max h = list_max (data values)).
  { revert Hm; unfold make_histogram.
    destruct (Nat.eqb (size values) 0); [discriminate|].
    destruct (np_histogram (data values) bins None) as [[counts edges]|]; cbn [bind];
      [|discriminate].
    destruct (first_pos _ counts); [|discriminate].
    destruct (first_pos _ (rev counts)); [|discriminate].
    cbn [option_map].
    match goal with |- context [if ?b then _ else _] => destruct b end; [discriminate|].
    intros H; injection H as <-; auto. }
  destruct E as [-> ->].
  split; [apply list_min_in; exact Hne|].
  split; [apply list_max_in; exact Hne|].
  intros v Hv; split; [apply list_min_le | apply list_max_ge]; exact Hv.
Qed.

Lemma make_histogram_min_max_witness :
  exists h, make_histogram hist_example 5 = Ok h /\
  In (h_min h) (data hist_example) /\ In (h_max h) (data hist_example) /\
  (forall v, In v (data hist_example) -> h_min h <= v /\ v <= h_max h).
Proof.
  destruct (make_histogram hist_example 5) as [h|e] eqn:E; [|discriminate].
  exists h; split; [reflexivity|].
  apply (make_histogram_min_max hist_example 5 h); [discriminate | exact E].
Defined.

(** ** PR curves: when the entry points raise *)

(** For a tag that UTF-8 can encode (protobuf refuses the others),
    [pr_curve_raw] raises exactly when the six arrays do not all have the
    length of [tp] ([np.stack]) or when [num_thresholds] is negative (the
    [uint32] field of [PrCurvePluginData]). *)
Theorem pr_curve_raw_errors (tag : pystr) (tp fp tn fn pr rc : list Q) (n : Z)
  (Htag : utf8_encodable tag = true) :
  is_err (pr_curve_raw tag tp fp tn fn pr rc n)
  = negb (forallb (fun x => Nat.eqb (length x) (length tp)) [fp; tn; fn; pr; rc])
    || (n <? 0)%Z.
Proof.
  unfold pr_curve_raw, np_stack.
  cbn [forallb]; rewrite Nat.eqb_refl; cbn [andb].
  destruct (forallb (fun x => Nat.eqb (length x) (length tp)) [fp; tn; fn; pr; rc]) eqn:E;
    cbn [forallb] in E; rewrite E; cbn [negb orb bind is_err]; [|reflexivity].
  unfold pr_curve_plugin.
  destruct (n >? 127)%Z eqn:Hg.
  - apply Z.gtb_lt in Hg; replace (n <? 0)%Z with false by (symmetry; apply Z.ltb_ge; lia).
    reflexivity.
  - rewrite Z.gtb_ltb, Z.ltb_ge in Hg.
    destruct (n <? 0)%Z eqn:Hn.
    + apply Z.ltb_lt in Hn; replace (0 <=? n)%Z with false by (symmetry; apply Z.leb_gt; lia).
      reflexivity.
    + apply Z.ltb_ge in Hn.
      replace ((0 <=? n) && (n <? 4294967296))%Z with true
        by (symmetry; apply andb_true_iff; split; [apply Z.leb_le | apply Z.ltb_lt]; lia).
      reflexivity.
Qed.

Lemma pr_curve_raw_errors_witness :
  utf8_encodable (pystr_of_string "pr") = true /\
  is_err (pr_curve_raw (pystr_of_string "pr") [1] [2] [3] [4] [1 # 2] [1 # 3] 5)
  = negb (forallb (fun x => Nat.eqb (length x) (length [1]))
                  [[2]; [3]; [4]; [1 # 2]; [1 # 3]])
    || (5 <? 0)%Z.
Proof. split; [reflexivity | apply pr_curve_raw_errors; reflexivity]. Defined.



(** ** [custom_scalars] *)

Lemma mapM_ok_map {A B C} (f : A -> result B) (g : B -> C) (h : A -> C)
  (l : list A) (ys : list B) :
  (forall x y, f x = Ok y -> g y = h x) ->
  mapM f l = Ok ys -> map g ys = map h l.
Proof.
  intros Hf; revert ys; induction l as [|x l IH]; intros ys; cbn [mapM].
  - intros H; injection H as <-; reflexivity.
  - destruct (f x) as [y|] eqn:Ex; cbn [bind]; [|discriminate].
    destruct (mapM f l) as [ys'|] eqn:El; cbn [bind]; [|discriminate].
    intros H; injection H as <-; cbn [map]; rewrite (Hf x y Ex), (IH ys' eq_refl); reflexivity.
Qed.

(** On success, [custom_scalars] emits one record tagged
    [custom_scalars__config__] whose layout keeps the categories and, in each,
    the charts in the order and with the titles of the input dict. *)
Theorem custom_scalars_layout (layout : list (pystr * list (pystr * (pystr * list pystr))))
  (s : Summary) :
  custom_scalars layout = Ok s ->
  exists cats,
    s = [mk_value (pystr_of_string "custom_scalars__config__")
           [mk_plugin "custom_scalars" NoContent]
           (TensorValue (mk_tensor "DT_STRING" (LayoutVal cats) []))] /\
    map cat_title cats = map fst layout /\
    map (fun c => map chart_title (cat_charts c)) cats
    = map (fun kv => map fst (snd kv)) layout.
Proof.
  unfold custom_scalars.
  destruct (mapM _ layout) as [cats|] eqn:Em; cbn [bind]; [|discriminate].
  intros H; injection H as <-; exists cats; split; [reflexivity|].
  split.
  - eapply mapM_ok_map; [|exact Em].
    intros [k v] c; cbn [fst].
    destruct (mapM _ v); cbn [bind]; [|discriminate].
    intros H; injection H as <-; reflexivity.
  - eapply mapM_ok_map; [|exact Em].
    intros [k v] c; cbn [snd].
    destruct (mapM _ v) as [charts|] eqn:Ev; cbn [bind]; [|discriminate].
    intros H; injection H as <-; cbn [cat_charts].
    eapply mapM_ok_map; [|exact Ev].
    intros [name [kind tags]] ch; unfold chart_of; cbn [fst snd].
    destruct (pystr_eqb kind (pystr_of_string "Margin")).
    + destruct tags as [|a [|b [|c [|d r]]]]; try discriminate.
      intros H; injection H as <-; reflexivity.
    + intros H; injection H as <-; reflexivity.
Qed.

Lemma custom_scalars_layout_witness :
  let layout := [(pystr_of_string "loss",
                  [(pystr_of_string "both", (pystr_of_string "Multiline",
                     [pystr_of_string "a"; pystr_of_string "b"]))])] in
  exists s, custom_scalars layout = Ok s /\
  exists cats,
    s = [mk_value (pystr_of_string "custom_scalars__config__")
           [mk_plugin "custom_scalars" NoContent]
           (TensorValue (mk_tensor "DT_STRING" (LayoutVal cats) []))] /\
    map cat_title cats = map fst layout /\
    map (fun c => map chart_title (cat_charts c)) cats
    = map (fun kv => map fst (snd kv)) layout.
Proof.
  intros layout.
  destruct (custom_scalars layout) as [s|e] eqn:E; [|discriminate].
  exists s; split; [reflexivity|].
  exact (custom_scalars_layout layout s E).
Defined.

(** ** [image_boxes] *)

(** For a non-empty [H x W x C] image with [C] in 2..4 (the channel counts
    PIL's [Image.fromarray] accepts for [uint8]: LA, RGB, RGBA) and a 2-D box
    array, [image_boxes] raises [NameError] on the undefined [shuffle] in
    [draw_boxes], so it never returns. *)
Theorem image_boxes_name_error (cast_u8 : Q -> Z)
  (png_encode : nat -> nat -> nat -> list Z -> Q -> list Z)
  (tag : pystr) (ti tb : ndarray) (rescale : Q) (h w c : nat) :
  shape ti = [h; w; c] -> (1 <= h)%nat -> (1 <= w)%nat -> (2 <= c <= 4)%nat ->
  length (shape tb) = 2%nat ->
  image_boxes cast_u8 png_encode tag ti tb rescale = Err (NameError "shuffle").
Proof.
  intros Hi _ _ _ Hb; unfold image_boxes, box_columns, make_image, draw_boxes.
  destruct (shape tb) as [|n [|m [|]]]; try discriminate; cbn [bind].
  rewrite Hi; reflexivity.
Qed.

Lemma image_boxes_name_error_witness :
  image_boxes (fun q => Qfloor q) (fun _ _ _ _ _ => []) (pystr_of_string "img")
    (mk_ndarray DT_float32 [1%nat; 1%nat; 3%nat] [0; 0; 0])
    (mk_ndarray DT_float32 [1%nat; 5%nat] [0; 0; 0; 1; 1]) 1
  = Err (NameError "shuffle").
Proof.
  apply (image_boxes_name_error _ _ _ _ _ _ 1 1 3); [reflexivity | lia | lia | lia | reflexivity].
Defined.

(** ** [audio]: the warning and the sample rate *)


Lemma audio_printed (tag : pystr) (T : ndarray) (sr : Z) printed s :
  audio tag T sr = Ok (printed, s) ->
  printed = if negb (Qle_bool (list_max (map Qabs (data T))) 1)
            then ["warning: audio amplitude out of range, auto clipped."%string] else [].
Proof.
  unfold audio; cbv zeta.
  change (data (squeeze T)) with (data T).
  destruct (data T) as [|x0 r]; [discriminate|].
  destruct (negb (Qle_bool (list_max (map Qabs (x0 :: r))) 1)); cbv beta iota;
    (destruct (negb (Nat.eqb (ndim (squeeze T)) 1)); [discriminate|]);
    (destruct (mapM pack_h _); cbn [bind]; [|discriminate]);
    (destruct (wave_write _ _ _ _); cbn [bind]; [|discriminate]);
    intros H; injection H as <- _; reflexivity.
Qed.

Lemma list_max_gt_exists (l : list Q) :
  l <> [] -> (1 < list_max l <-> Exists (fun x => 1 < x) l).
Proof.
  intros Hne; split.
  - intros H; apply Exists_exists; exists (list_max l); split; auto.
    apply list_max_in; exact Hne.
  - intros H; apply Exists_exists in H as [x [Hx H]].
    eapply Qlt_le_trans; [exact H | apply list_max_ge; exact Hx].
Qed.

(** [audio] prints its clipping warning exactly when some sample has an
    absolute value above 1; this is its only output besides the record. *)
Theorem audio_warning (tag : pystr) (T : ndarray) (sr : Z) printed s :
  audio tag T sr = Ok (printed, s) ->
  (printed = ["warning: audio amplitude out of range, auto clipped."%string]
   <-> Exists (fun x => 1 < Qabs x) (data T)) /\
  (printed = [] <-> Forall (fun x => Qabs x <= 1) (data T)).
Proof.
  intros Hok.
  assert (Hne : data T <> []).
  { intros E; revert Hok; unfold audio; cbv zeta.
    change (data (squeeze T)) with (data T); rewrite E; discriminate. }
  rewrite (audio_printed _ _ _ _ _ Hok).
  assert (Hm : map Qabs (data T) <> []) by (destruct (data T); [congruence | discriminate]).
  pose proof (list_max_gt_exists _ Hm) as HE.
  rewrite Exists_map in HE.
  destruct (Qle_bool (list_max (map Qabs (data T))) 1) eqn:Eb; cbn [negb].
  - apply Qle_bool_iff in Eb.
    split; split; intros H; try discriminate; auto.
    + apply HE in H; lra.
    + apply Forall_forall; intros x Hx.
      eapply Qle_trans; [apply list_max_ge, in_map; exact Hx | exact Eb].
  - assert (Hlt : 1 < list_max (map Qabs (data T))).
    { apply Qnot_le_lt; intros H; apply Qle_bool_iff in H; congruence. }
    split; split; intros H; try discriminate; auto.
    + apply HE; exact Hlt.
    + exfalso; apply HE in Hlt; apply Exists_exists in Hlt as [x [Hx Hx1]].
      rewrite Forall_forall in H; specialize (H x Hx); lra.
Qed.

Lemma audio_warning_witness :
  exists printed s,
  audio (pystr_of_string "a") (mk_ndarray DT_float32 [3%nat] [1 # 2; -1 # 2; 2]) 8000
    = Ok (printed, s) /\
  ((printed = ["warning: audio amplitude out of range, auto clipped."%string]
    <-> Exists (fun x => 1 < Qabs x) [1 # 2; -1 # 2; 2]) /\
   (printed = [] <-> Forall (fun x => Qabs x <= 1) [1 # 2; -1 # 2; 2])).
Proof.
  destruct (audio (pystr_of_string "a") (mk_ndarray DT_float32 [3%nat] [1 # 2; -1 # 2; 2]) 8000)
    as [[printed s]|e] eqn:E; [|discriminate].
  exists printed, s; split; [reflexivity|].
  exact (audio_warning _ _ _ _ _ E).
Defined.




(** ** PR curves: the derived rows *)







(** ** PR curves: totals *)

Lemma fold_Qplus_acc (l : list Q) : forall a, fold_left Qplus l a == a + fold_left Qplus l 0.
Proof.
  induction l as [|y l IH]; intros a; simpl; [lra|].
  rewrite (IH (a + y)), (IH (0 + y)); lra.
Qed.

Lemma qsum_cons (x : Q) (l : list Q) : qsum (x :: l) == x + qsum l.
Proof. unfold qsum; simpl; rewrite fold_Qplus_acc; lra. Qed.

Lemma qsum_app (a b : list Q) : qsum (a ++ b) == qsum a + qsum b.
Proof.
  unfold qsum; rewrite fold_left_app, fold_Qplus_acc; reflexivity.
Qed.

Lemma qsum_rev (l : list Q) : qsum (rev l) == qsum l.
Proof.
  induction l as [|x l IH]; [reflexivity|].
  cbn [rev]; rewrite qsum_app, IH, (qsum_cons x l).
  assert (qsum [x] == x) by (unfold qsum; simpl; lra); lra.
Qed.

Lemma qsum_repeat0 (n : nat) : qsum (repeat 0 n) == 0.
Proof.
  induction n as [|n IH]; [reflexivity|].
  cbn [repeat]; rewrite qsum_cons, IH; lra.
Qed.

Lemma qsum_add_at (l : list Q) (i : nat) (x : Q) :
  (i < length l)%nat -> qsum (add_at Qplus l i x) == qsum l + x.
Proof.
  revert i; induction l as [|y l IH]; intros [|i] Hi; cbn [length] in Hi; try lia;
    cbn [add_at]; rewrite !qsum_cons.
  - lra.
  - rewrite IH by lia; lra.
Qed.

Lemma wcount_fold_sum (n : nat) (first last : Q) (pairs : list (Q * Q)) :
  (0 < n)%nat -> first < last ->
  (forall p, In p pairs -> first <= fst p <= last) ->
  forall acc, length acc = n ->
  qsum (fold_left (wcount_step n first last) pairs acc) == qsum acc + qsum (map snd pairs).
Proof.
  intros Hn Hfl; induction pairs as [|[v x] pairs IH]; intros Hin acc Hacc.
  - simpl; unfold qsum at 3; simpl; lra.
  - cbn [fold_left map].
    destruct (Hin (v, x) (or_introl eq_refl)) as [H1 H2]; cbn [fst] in H1, H2.
    unfold wcount_step at 2.
    replace (in_range first last v) with true
      by (symmetry; apply andb_true_iff; split; apply Qle_bool_iff; assumption).
    rewrite IH; [| intros p Hp; apply Hin; right; exact Hp | rewrite add_at_length; exact Hacc].
    rewrite qsum_add_at by (rewrite Hacc; apply bin_index_lt; assumption).
    rewrite qsum_cons; cbn [snd]; lra.
Qed.

Lemma map_snd_combine {A B} (a : list A) (b : list B) :
  length a = length b -> map snd (combine a b) = b.
Proof.
  revert b; induction a as [|x a IH]; intros [|y b] H; cbn in *; try lia; auto.
  rewrite IH by lia; reflexivity.
Qed.

Lemma np_histogram_weighted_sum (a w : list Q) (bins : Z) (r0 r1 : Q)
  (counts edges : list Q) :
  length w = length a -> r0 <= r1 -> (forall v, In v a -> r0 <= v <= r1) ->
  np_histogram_weighted a bins (Some (r0, r1)) w = Ok (counts, edges) ->
  qsum counts == qsum w.
Proof.
  intros Hlen Hr Hin.
  unfold np_histogram_weighted.
  rewrite Hlen, Nat.eqb_refl; cbn [negb].
  unfold histogram_checks, bind.
  destruct (bins <? 1)%Z eqn:Hb; [discriminate|]; apply Z.ltb_ge in Hb.
  unfold hist_range.
  set (fl := if Qeq_bool r0 r1 then (r0 - (1 # 2), r1 + (1 # 2)) else (r0, r1)).
  assert (Hfl : fst fl < snd fl /\ fst fl <= r0 /\ r1 <= snd fl).
  { unfold fl; destruct (Qeq_bool r0 r1) eqn:E; simpl.
    - lra.
    - assert (~ r0 == r1) by (intros Hq; apply Qeq_bool_iff in Hq; congruence).
      split; [|lra].
      destruct (Qlt_le_dec r0 r1); [assumption|].
      exfalso; apply H; apply Qle_antisym; assumption. }
  destruct fl as [first last]; cbn [fst snd] in Hfl.
  destruct (Qlt_le_dec last first); [discriminate|].
  intros H; injection H as <- _.
  rewrite wcount_fold_sum; [| lia | lra | | apply repeat_length].
  - rewrite qsum_repeat0, map_snd_combine by (symmetry; exact Hlen); lra.
  - intros [v x] Hp; apply in_combine_l in Hp; cbn [fst].
    destruct (Hin v Hp); split; lra.
Qed.

Lemma hd_rev_cumsum (l : list Q) :
  l <> [] -> Forall (Qle 0) l -> hd 0 (rev_cumsum l) == qsum l.
Proof.
  intros Hne Hl.
  destruct (rev_cumsum_props l Hl) as [_ [_ [_ H4]]].
  destruct (rev_cumsum l) as [|y r] eqn:E.
  - exfalso; apply Hne, length_zero_iff_nil; rewrite <- length_rev_cumsum, E; reflexivity.
  - cbn [hd]; rewrite (H4 y eq_refl); change (qsum (rev l) == qsum l); apply qsum_rev.
Qed.

Lemma bucket_index_range (n : Z) (p : Q) :
  (1 <= n)%Z -> 0 <= p <= 1 ->
  0 <= inject_Z (Qfloor (p * inject_Z (n - 1))) <= inject_Z (n - 1).
Proof.
  intros Hn [H0 H1].
  assert (Hm : 0 <= inject_Z (n - 1)) by (change 0 with (inject_Z 0); rewrite <- Zle_Qle; lia).
  assert (Hlo : 0 <= p * inject_Z (n - 1)) by (apply Qmult_le_0_compat; assumption).
  assert (Hhi : p * inject_Z (n - 1) <= inject_Z (n - 1)).
  { rewrite <- (Qmult_1_l (inject_Z (n - 1))) at 2; apply Qmult_le_compat_r; assumption. }
  pose proof (Qfloor_resp_le _ _ Hlo) as F0; pose proof (Qfloor_resp_le _ _ Hhi) as F1.
  rewrite Qfloor_Z in F1; change (Qfloor 0) with 0%Z in F0.
  split; [change 0 with (inject_Z 0) | ]; rewrite <- Zle_Qle; lia.
Qed.

(** Without weights, with labels in {0, 1} and predictions in [[0, 1]], the
    first entry of [tp] is the number of positive labels and the first entry
    of [fp] the number of negative ones: the lowest threshold counts every
    example. *)
Theorem compute_curve_totals (labels preds : list Q) (n : Z)
  (Hn : (1 <= n)%Z) (Hlp : length labels = length preds)
  (Hlab : Forall (fun l => l == 0 \/ l == 1) labels)
  (Hpred : Forall (fun p => 0 <= p <= 1) preds) :
  exists tp fp tn fn pr rc,
    compute_curve labels preds n NoWeights = Ok [tp; fp; tn; fn; pr; rc] /\
    hd 0 tp == qsum labels /\
    hd 0 fp == inject_Z (Z.of_nat (length labels)) - qsum labels.
Proof.
  assert (Hr : 0 <= inject_Z (n - 1)) by (change 0 with (inject_Z 0); rewrite <- Zle_Qle; lia).
  set (idx := map (fun p => inject_Z (Qfloor (p * inject_Z (n - 1)))) preds).
  assert (Hidx : forall v, In v idx -> 0 <= v <= inject_Z (n - 1)).
  { intros v Hv; unfold idx in Hv; apply in_map_iff in Hv as [p [<- Hp]].
    apply bucket_index_range; [exact Hn|]; rewrite Forall_forall in Hpred; auto. }
  assert (Hli : length idx = length labels) by (unfold idx; rewrite length_map; lia).
  assert (Hl01 : Forall (Qle 0) labels)
    by (eapply Forall_impl; [|exact Hlab]; simpl; intros l [H | H]; rewrite H; lra).
  assert (Hl10 : Forall (Qle 0) (map (fun l => (1 - l) * 1) labels)).
  { apply Forall_map; eapply Forall_impl; [|exact Hlab]; simpl; intros l [H | H];
      rewrite H; lra. }
  assert (Hl1 : Forall (Qle 0) (map (fun l => l * 1) labels)).
  { apply Forall_map; eapply Forall_impl; [|exact Hlab]; simpl; intros l [H | H];
      rewrite H; lra. }
  destruct (np_histogram_weighted_ok idx (map (fun l => l * 1) labels) n 0 (inject_Z (n - 1)))
    as [tpb [tpe [Htph [Htpb Htpnn]]]]; [rewrite length_map; lia | exact Hn | exact Hr |].
  destruct (np_histogram_weighted_ok idx (map (fun l => (1 - l) * 1) labels) n 0
              (inject_Z (n - 1)))
    as [fpb [fpe [Hfph [Hfpb Hfpnn]]]]; [rewrite length_map; lia | exact Hn | exact Hr |].
  assert (Stp := np_histogram_weighted_sum idx (map (fun l => l * 1) labels) n 0 (inject_Z (n - 1)) tpb tpe
                  ltac:(rewrite length_map; lia) Hr Hidx Htph).
  assert (Sfp := np_histogram_weighted_sum idx (map (fun l => (1 - l) * 1) labels) n 0 (inject_Z (n - 1)) fpb fpe
                  ltac:(rewrite length_map; lia) Hr Hidx Hfph).
  unfold compute_curve; fold idx; cbn [weight_mul bind].
  rewrite map_map.
  rewrite Htph; cbn [bind]; rewrite Hfph; cbn [bind fst].
  do 6 eexists; split; [reflexivity|].
  assert (Hnz : forall l : list Q, length l = Z.to_nat n -> l <> [])
    by (intros l Hl E; rewrite E in Hl; cbn in Hl; lia).
  split.
  - rewrite hd_rev_cumsum by auto.
    rewrite Stp; clear; induction labels as [|x l IH]; [reflexivity|].
    cbn [map]; rewrite !qsum_cons, IH; lra.
  - rewrite hd_rev_cumsum by auto.
    rewrite Sfp; clear; induction labels as [|x l IH]; [reflexivity|].
    cbn [map length]; rewrite !qsum_cons, IH, Nat2Z.inj_succ, <- Z.add_1_r, inject_Z_plus.
    change (inject_Z 1) with 1; lra.
Qed.

Lemma compute_curve_totals_witness :
  exists tp fp tn fn pr rc,
    compute_curve [1; 0; 1; 1] [9 # 10; 2 # 10; 5 # 10; 1] 5 NoWeights
      = Ok [tp; fp; tn; fn; pr; rc] /\
    hd 0 tp == qsum [1; 0; 1; 1] /\
    hd 0 fp == inject_Z (Z.of_nat (length [1; 0; 1; 1])) - qsum [1; 0; 1; 1].
Proof.
  apply (compute_curve_totals [1; 0; 1; 1] [9 # 10; 2 # 10; 5 # 10; 1] 5).
  - lia.
  - reflexivity.
  - repeat constructor; (left; reflexivity) || (right; reflexivity).
  - repeat constructor; discriminate.
Defined.

Lemma count_fold_mono (n : nat) (first last : Q) (vals : list Q) :
  forall acc k, (nth k acc 0 <= nth k (fold_left (count_step n first last) vals acc) 0)%nat.
Proof.
  induction vals as [|v r IH]; intros acc k; [cbn; lia|].
  cbn [fold_left]; eapply Nat.le_trans; [|apply IH].
  unfold count_step; destruct (in_range first last v); [|lia].
  generalize (bin_index n first last v); clear; revert k.
  induction acc as [|x a IHa]; intros k i; [destruct i, k; cbn; lia|].
  destruct i, k; cbn [add_at nth]; try lia; apply IHa.
Qed.

Lemma count_fold_hit (n : nat) (first last v : Q) (vals : list Q) :
  In v vals -> in_range first last v = true ->
  forall acc, (bin_index n first last v < length acc)%nat ->
  (0 < nth (bin_index n first last v) (fold_left (count_step n first last) vals acc) 0)%nat.
Proof.
  induction vals as [|x r IH]; intros Hin Hr acc Hlt; [destruct Hin|].
  cbn [fold_left]; destruct Hin as [->|Hin].
  - eapply Nat.lt_le_trans; [|apply count_fold_mono].
    unfold count_step; rewrite Hr.
    generalize (bin_index n first last v) Hlt; clear; revert acc.
    induction acc as [|x a IHa]; intros i Hi; [cbn in Hi; lia|].
    destruct i; cbn [add_at nth length] in *; [lia|apply IHa; lia].
  - apply IH; auto.
    unfold count_step; destruct (in_range first last x); auto.
    rewrite add_at_length; exact Hlt.
Qed.

Lemma bin_index_last (n : nat) (first last : Q) :
  (0 < n)%nat -> first < last -> bin_index n first last last = (n - 1)%nat.
Proof.
  intros Hn Hfl; unfold bin_index.
  assert (E : (last - first) * (inject_Z (Z.of_nat n) / (last - first)) == inject_Z (Z.of_nat n)).
  { field; intros E; assert (E' : last == first) by lra; rewrite E' in Hfl; apply (Qlt_irrefl _ Hfl). }
  assert (Hf : Qfloor ((last - first) * (inject_Z (Z.of_nat n) / (last - first))) = Z.of_nat n).
  { assert (H1 := Qfloor_resp_le _ _ (proj2 (Qle_lteq _ _) (or_intror E))).
    assert (H2 := Qfloor_resp_le _ _ (proj2 (Qle_lteq _ _) (or_intror (Qeq_sym _ _ E)))).
    rewrite Qfloor_Z in H1, H2; lia. }
  rewrite Hf, Nat2Z.id, Nat.eqb_refl; reflexivity.
Qed.

Lemma last_bin_edge (m : nat) (a b : Q) (s : nat) :
  (s <= m)%nat ->
  last (skipn s (tl (bin_edges (S m) a b))) 0 == b.
Proof.
  intros Hs; unfold bin_edges; change (seq 0 (S (S m))) with (0%nat :: seq 1 (S m)); cbn [map tl].
  rewrite seq_S, map_app, skipn_app, length_map, length_seq.
  replace (s - m)%nat with 0%nat by lia; cbn [skipn map].
  rewrite last_last.
  replace (1 + m)%nat with (S m) by lia.
  field; intros E; discriminate E.
Qed.

Lemma hist_range_distinct (a : list Q) :
  list_min a < list_max a -> hist_range a None = (list_min a, list_max a).
Proof.
  intros H; unfold hist_range; destruct a as [|x r]; [destruct (Qlt_irrefl _ H)|].
  destruct (Qeq_bool _ _) eqn:E; [|reflexivity].
  apply Qeq_bool_iff in E; rewrite E in H; destruct (Qlt_irrefl _ H).
Qed.

(** When the input is not constant, the last [bucket_limit] of
    [make_histogram] equals [max]: the largest value always falls into the
    last bin of [np.histogram], so trimming never cuts the top bucket, and
    its upper edge is [max] itself. *)
Theorem make_histogram_last_limit (values : ndarray) (bins : Z) (h : HistogramProto) :
  length (data values) = size values -> (1 <= bins)%Z ->
  list_min (data values) < list_max (data values) ->
  make_histogram values bins = Ok h ->
  last (h_bucket_limit h) 0 == h_max h.
Proof.
  intros Hwf Hb Hmm Hm.
  assert (Hne : data values <> []).
  { intros E; rewrite E in Hmm; apply (Qlt_irrefl _ Hmm). }
  assert (Hsz : size values <> 0%nat).
  { intros E; rewrite E in Hwf; destruct (data values); [contradiction | discriminate]. }
  destruct (make_histogram_int_bins values bins Hwf Hsz Hb)
    as [counts [first [last' [i [j [Hfl [Hnp [Hlen [Hsum [Hij [Hj [Hbi [Haj Hmh]]]]]]]]]]]]].
  set (n := Z.to_nat bins) in *.
  set (mn := list_min (data values)) in *; set (mx := list_max (data values)) in *.
  assert (Hn : (0 < n)%nat) by (unfold n; lia).
  assert (Hnp' : np_histogram (data values) bins None
                 = Ok (fold_left (count_step n mn mx) (data values) (repeat 0%nat n),
                       bin_edges n mn mx)).
  { unfold np_histogram, histogram_checks.
    replace (bins <? 1)%Z with false by lia; rewrite hist_range_distinct by exact Hmm.
    fold mn mx.
    destruct (Qlt_le_dec mx mn) as [Hc|_]; [|reflexivity].
    exfalso; apply (Qlt_irrefl mn); apply Qlt_trans with mx; assumption. }
  rewrite Hnp in Hnp'.
  assert (Hc : counts = fold_left (count_step n mn mx) (data values) (repeat 0%nat n))
    by congruence.
  assert (He : bin_edges n first last' = bin_edges n mn mx) by congruence.
  rewrite He, Hm in Hmh.
  assert (Hh := f_equal (fun r => match r with Ok x => x | Err _ => h end) Hmh).
  cbv beta iota in Hh; subst h; cbn [h_bucket_limit h_max].
  assert (Hlast : (0 < nth (n - 1) counts 0)%nat).
  { rewrite Hc, <- (bin_index_last n mn mx Hn Hmm).
    apply count_fold_hit.
    - apply list_max_in; exact Hne.
    - unfold in_range; apply andb_true_intro; split; apply Qle_bool_iff;
        [apply Qlt_le_weak; exact Hmm | apply Qle_refl].
    - rewrite bin_index_last by assumption; rewrite repeat_length; lia. }
  assert (Hjn : j = (n - 1)%nat).
  { destruct (Nat.lt_ge_cases j (n - 1)) as [Hlt|]; [|lia].
    specialize (Haj (n - 1)%nat ltac:(lia)); lia. }
  subst j; destruct n as [|m]; [lia|].
  replace (S (S m - 1)) with (S m) by lia.
  assert (Hs : (trim_start i <= m)%nat) by (unfold trim_start; lia).
  unfold py_slice; rewrite firstn_all2.
  - apply last_bin_edge; exact Hs.
  - rewrite length_skipn; pose proof (bin_edges_length (S m) mn mx) as HL.
    destruct (bin_edges (S m) mn mx); cbn [length tl] in *; lia.
Qed.

Lemma make_histogram_last_limit_witness :
  exists h, make_histogram hist_example 5 = Ok h /\ last (h_bucket_limit h) 0 == h_max h.
Proof.
  destruct (make_histogram hist_example 5) as [h|e] eqn:E; [|discriminate].
  exists h; split; [reflexivity|].
  apply (make_histogram_last_limit hist_example 5 h); [reflexivity | lia | reflexivity | exact E].
Defined.

(** ** [text]: the UTF-8 payload *)

Lemma Ok_inj {A} (x y : A) : Ok x = Ok y -> x = y.
Proof. intros H; congruence. Qed.

Lemma cons_eq {A} (x y : A) (l m : list A) : x :: l = y :: m -> x = y /\ l = m.
Proof. intros H; split; congruence. Qed.

Ltac split_cons E :=
  repeat match type of E with
         | _ :: _ = _ :: _ =>
             let Ex := fresh "Ex" in apply cons_eq in E; destruct E as [Ex E]
         end.

Lemma lor_low_bits (a x k : Z) :
  (0 <= k)%Z -> (0 <= x < 2 ^ k)%Z -> Z.lor (a * 2 ^ k) x = (a * 2 ^ k + x)%Z.
Proof.
  intros Hk Hx.
  assert (H0 : Z.land (a * 2 ^ k) x = 0%Z).
  { apply Z.bits_inj'; intros m Hm; rewrite Z.land_spec, Z.bits_0.
    rewrite <- Z.shiftl_mul_pow2 by exact Hk; rewrite Z.shiftl_spec by exact Hm.
    destruct (Z.lt_ge_cases m k) as [Hlt|Hge].
    - rewrite Z.testbit_neg_r by lia; reflexivity.
    - replace (Z.testbit x m) with false; [apply andb_false_r|].
      symmetry; apply Z.testbit_false; [exact Hm|].
      rewrite Z.div_small; [reflexivity|].
      split; [lia|]; apply Z.lt_le_trans with (2 ^ k)%Z; [lia|].
      apply Z.pow_le_mono_r; lia. }
  rewrite <- Z.lxor_lor by exact H0; rewrite Z.add_nocarry_lxor by exact H0; reflexivity.
Qed.

Lemma lor_lead (lead x k : Z) :
  (0 <= k)%Z -> (0 <= x < 2 ^ k)%Z -> (lead mod 2 ^ k = 0)%Z ->
  Z.lor lead x = (lead + x)%Z.
Proof.
  intros Hk Hx Hm.
  assert (E : lead = (lead / 2 ^ k * 2 ^ k)%Z).
  { rewrite (Z.div_mod lead (2 ^ k)) at 1 by lia; rewrite Hm; ring. }
  rewrite E; apply lor_low_bits; assumption.
Qed.

(** The bytes [str.encode('utf_8')] gives for one code point, in arithmetic form. *)
Lemma utf8_encode_char_form (c : N) (b : list Z) :
  utf8_encode_char c = Ok b ->
  let z := Z.of_N c in
  ((z < 128)%Z /\ b = [z]) \/
  ((128 <= z < 2048)%Z /\ b = [192 + z / 64; 128 + z mod 64]%Z) \/
  ((2048 <= z < 65536)%Z /\ (z < 55296 \/ 57343 < z)%Z /\
     b = [224 + z / 4096; 128 + (z / 64) mod 64; 128 + z mod 64]%Z) \/
  ((65536 <= z <= 1114111)%Z /\
     b = [240 + z / 262144; 128 + (z / 4096) mod 64; 128 + (z / 64) mod 64;
          128 + z mod 64]%Z).
Proof.
  intros H; cbv zeta; unfold utf8_encode_char in H; cbv zeta in H.
  set (z := Z.of_N c) in *.
  assert (Hz : (0 <= z)%Z) by (unfold z; lia).
  assert (L63 : forall y, Z.land y 63 = (y mod 64)%Z)
    by (intros y; change 63%Z with (Z.ones 6); rewrite Z.land_ones by lia; reflexivity).
  assert (C : forall y, Z.lor 128 (y mod 64) = (128 + y mod 64)%Z).
  { intros y; apply (lor_lead 128 _ 6); [lia | | reflexivity].
    change (2 ^ 6)%Z with 64%Z; apply Z.mod_pos_bound; lia. }
  destruct (z <? 128)%Z eqn:E1.
  { left; apply Ok_inj in H; subst b; split; [lia | reflexivity]. }
  destruct (z <? 2048)%Z eqn:E2.
  { right; left; apply Ok_inj in H; subst b; split; [lia|].
    rewrite L63, C, Z.shiftr_div_pow2 by lia; change (2 ^ 6)%Z with 64%Z.
    rewrite (lor_lead 192 _ 5); [reflexivity | lia | | reflexivity].
    change (2 ^ 5)%Z with 32%Z; split; [apply Z.div_pos; lia | apply Z.div_lt_upper_bound; lia]. }
  destruct (z <? 65536)%Z eqn:E3.
  { destruct ((55296 <=? z) && (z <=? 57343))%Z eqn:Es; [discriminate|].
    right; right; left; apply Ok_inj in H; subst b; split; [lia|]; split.
    { apply andb_false_iff in Es; destruct Es as [Es|Es];
        [apply Z.leb_gt in Es | apply Z.leb_gt in Es]; lia. }
    rewrite !L63, !C, !Z.shiftr_div_pow2 by lia; change (2 ^ 6)%Z with 64%Z.
    change (2 ^ 12)%Z with 4096%Z.
    rewrite (lor_lead 224 _ 4); [reflexivity | lia | | reflexivity].
    change (2 ^ 4)%Z with 16%Z; split; [apply Z.div_pos; lia | apply Z.div_lt_upper_bound; lia]. }
  destruct (z <=? 1114111)%Z eqn:E4; [|discriminate].
  right; right; right; apply Ok_inj in H; subst b; split; [lia|].
  rewrite !L63, !C, !Z.shiftr_div_pow2 by lia; change (2 ^ 6)%Z with 64%Z.
  change (2 ^ 12)%Z with 4096%Z; change (2 ^ 18)%Z with 262144%Z.
  rewrite (lor_lead 240 _ 3); [reflexivity | lia | | reflexivity].
  change (2 ^ 3)%Z with 8%Z; split; [apply Z.div_pos; lia | apply Z.div_lt_upper_bound; lia].
Qed.

Lemma utf8_char_inj (c1 c2 : N) (b1 b2 r1 r2 : list Z) :
  utf8_encode_char c1 = Ok b1 -> utf8_encode_char c2 = Ok b2 ->
  b1 ++ r1 = b2 ++ r2 -> c1 = c2 /\ r1 = r2.
Proof.
  intros H1 H2 E.
  pose proof (utf8_encode_char_form c1 b1 H1) as F1.
  pose proof (utf8_encode_char_form c2 b2 H2) as F2.
  cbv zeta in F1, F2.
  assert (Hz1 : (0 <= Z.of_N c1)%Z) by lia; assert (Hz2 : (0 <= Z.of_N c2)%Z) by lia.
  destruct F1 as [[B1 ->]|[[B1 ->]|[[B1 [_ ->]]|[B1 ->]]]];
  destruct F2 as [[B2 ->]|[[B2 ->]|[[B2 [_ ->]]|[B2 ->]]]];
  cbn [app] in E; split_cons E;
  first [ exfalso; Z.div_mod_to_equations; lia
        | split; [apply N2Z.inj; Z.div_mod_to_equations; lia | exact E] ].
Qed.

Lemma utf8_encode_char_nonempty (c : N) (b : list Z) :
  utf8_encode_char c = Ok b -> b <> [].
Proof.
  intros H; destruct (utf8_encode_char_form c b H)
    as [[_ ->]|[[_ ->]|[[_ [_ ->]]|[_ ->]]]]; discriminate.
Qed.

Lemma utf8_mapM_inj (s1 : pystr) :
  forall (s2 : pystr) bs1 bs2, mapM utf8_encode_char s1 = Ok bs1 -> mapM utf8_encode_char s2 = Ok bs2 ->
  concat bs1 = concat bs2 -> s1 = s2.
Proof.
  induction s1 as [|c1 r1 IH]; intros s2 bs1 bs2 H1 H2 E; destruct s2 as [|c2 r2].
  - reflexivity.
  - exfalso; cbn in H1; injection H1 as <-; cbn [mapM] in H2.
    destruct (utf8_encode_char c2) as [b|] eqn:Ec; [|discriminate]; cbn [bind] in H2.
    destruct (mapM utf8_encode_char r2) as [bs|]; [|discriminate]; injection H2 as <-.
    cbn [concat] in E; apply (utf8_encode_char_nonempty c2 b Ec).
    destruct b; [reflexivity | discriminate].
  - exfalso; cbn in H2; injection H2 as <-; cbn [mapM] in H1.
    destruct (utf8_encode_char c1) as [b|] eqn:Ec; [|discriminate]; cbn [bind] in H1.
    destruct (mapM utf8_encode_char r1) as [bs|]; [|discriminate]; injection H1 as <-.
    cbn [concat] in E; apply (utf8_encode_char_nonempty c1 b Ec).
    destruct b; [reflexivity | discriminate].
  - cbn [mapM] in H1, H2.
    destruct (utf8_encode_char c1) as [b1|] eqn:Ec1; [|discriminate]; cbn [bind] in H1.
    destruct (mapM utf8_encode_char r1) as [t1|] eqn:Er1; [|discriminate]; injection H1 as <-.
    destruct (utf8_encode_char c2) as [b2|] eqn:Ec2; [|discriminate]; cbn [bind] in H2.
    destruct (mapM utf8_encode_char r2) as [t2|] eqn:Er2; [|discriminate]; injection H2 as <-.
    cbn [concat] in E.
    destruct (utf8_char_inj c1 c2 b1 b2 _ _ Ec1 Ec2 E) as [-> Et].
    f_equal; exact (IH r2 t1 t2 eq_refl Er2 Et).
Qed.

Lemma utf8_char_bytes (c : N) (b : list Z) :
  utf8_encode_char c = Ok b ->
  Forall (fun x => (0 <= x < 256)%Z) b /\ (1 <= length b <= 4)%nat.
Proof.
  intros H; pose proof (utf8_encode_char_form c b H) as F; cbv zeta in F.
  assert (Hz : (0 <= Z.of_N c)%Z) by lia.
  destruct F as [[B ->]|[[B ->]|[[B [_ ->]]|[B ->]]]];
    (split; [repeat constructor | cbn [length]; lia]);
    Z.div_mod_to_equations; lia.
Qed.

Lemma utf8_char_is_err (c : N) :
  is_err (utf8_encode_char c) =
  (((55296 <=? Z.of_N c) && (Z.of_N c <=? 57343)) || (1114111 <? Z.of_N c))%Z.
Proof.
  unfold utf8_encode_char; cbv zeta.
  destruct (Z.ltb_spec (Z.of_N c) 128); destruct (Z.ltb_spec (Z.of_N c) 2048);
  destruct (Z.ltb_spec (Z.of_N c) 65536); destruct (Z.leb_spec 55296 (Z.of_N c));
  destruct (Z.leb_spec (Z.of_N c) 57343); destruct (Z.leb_spec (Z.of_N c) 1114111);
  destruct (Z.ltb_spec 1114111 (Z.of_N c)); cbn [andb orb is_err]; first [reflexivity | lia].
Qed.

(** For a tag that UTF-8 can encode (protobuf refuses the others), [text]
    raises exactly when the string holds a lone surrogate (U+D800..U+DFFF) or
    a code point above U+10FFFF: [str.encode('utf_8')] refuses those and
    nothing else. *)
Theorem text_errors (tag txt : pystr) (Htag : utf8_encodable tag = true) :
  is_err (text tag txt) =
  existsb (fun c => ((55296 <=? Z.of_N c) && (Z.of_N c <=? 57343)) || (1114111 <? Z.of_N c))%Z
          txt.
Proof.
  assert (E : is_err (text tag txt) = is_err (mapM utf8_encode_char txt)).
  { unfold text, utf8_encode; destruct (mapM utf8_encode_char txt); reflexivity. }
  rewrite E, is_err_mapM; apply existsb_ext_eq; intros c; apply utf8_char_is_err.
Qed.

Lemma text_errors_witness :
  utf8_encodable (pystr_of_string "note") = true /\
  is_err (text (pystr_of_string "note") [104%N; 55296%N]) =
  existsb (fun c => ((55296 <=? Z.of_N c) && (Z.of_N c <=? 57343)) || (1114111 <? Z.of_N c))%Z
          [104%N; 55296%N].
Proof. split; [reflexivity | apply text_errors; reflexivity]. Defined.

(** [text] loses no information: two strings that give the same summary
    under the same tag are equal (UTF-8 encoding is injective). *)
Theorem text_injective (tag t1 t2 : pystr) (s : Summary) :
  text tag t1 = Ok s -> text tag t2 = Ok s -> t1 = t2.
Proof.
  unfold text, utf8_encode.
  destruct (mapM utf8_encode_char t1) as [bs1|] eqn:E1; [|discriminate].
  destruct (mapM utf8_encode_char t2) as [bs2|] eqn:E2; [|discriminate].
  cbn [bind]; intros H1 H2.
  assert (Hb : concat bs1 = concat bs2) by (rewrite <- H2 in H1; congruence).
  exact (utf8_mapM_inj t1 t2 bs1 bs2 E1 E2 Hb).
Qed.

Lemma text_injective_witness :
  exists s, text (pystr_of_string "notes") [104%N; 233%N; 8364%N; 128512%N] = Ok s /\
  [104%N; 233%N; 8364%N; 128512%N] = [104%N; 233%N; 8364%N; 128512%N].
Proof.
  destruct (text (pystr_of_string "notes") [104%N; 233%N; 8364%N; 128512%N]) as [s|e] eqn:E;
    [|discriminate].
  exists s; split; [reflexivity|].
  exact (text_injective _ _ _ s E E).
Defined.

(** The payload of [text] is a byte string of one to four bytes per code
    point. *)
Theorem text_payload_bytes (tag txt : pystr) (s : Summary) :
  text tag txt = Ok s ->
  exists b, s = [mk_value (tag ++ pystr_of_string "/text_summary")
                          [mk_plugin "text" (TextPluginData 0)]
                          (TensorValue (mk_tensor "DT_STRING" (StringVal [b]) [1%nat]))] /\
    Forall (fun x => (0 <= x < 256)%Z) b /\
    (length txt <= length b <= 4 * length txt)%nat.
Proof.
  unfold text, utf8_encode.
  destruct (mapM utf8_encode_char txt) as [bs|] eqn:E; [|discriminate].
  cbn [bind]; intros H; apply Ok_inj in H; subst s.
  exists (concat bs); split; [reflexivity|].
  clear tag; revert bs E; induction txt as [|c r IH]; intros bs E.
  - cbn in E; apply Ok_inj in E; subst bs; cbn; split; [constructor | lia].
  - cbn [mapM] in E.
    destruct (utf8_encode_char c) as [b|] eqn:Ec; [|discriminate]; cbn [bind] in E.
    destruct (mapM utf8_encode_char r) as [t|] eqn:Er; [|discriminate].
    apply Ok_inj in E; subst bs; cbn [concat length].
    destruct (utf8_char_bytes c b Ec) as [Fb Lb].
    destruct (IH t eq_refl) as [Ft Lt].
    split; [apply Forall_app; split; assumption|].
    rewrite length_app; lia.
Qed.

Lemma text_payload_bytes_witness :
  exists s, text (pystr_of_string "notes") [104%N; 233%N; 8364%N; 128512%N] = Ok s /\
  exists b, s = [mk_value (pystr_of_string "notes" ++ pystr_of_string "/text_summary")
                          [mk_plugin "text" (TextPluginData 0)]
                          (TensorValue (mk_tensor "DT_STRING" (StringVal [b]) [1%nat]))] /\
    Forall (fun x => (0 <= x < 256)%Z) b /\
    (length [104%N; 233%N; 8364%N; 128512%N] <= length b
     <= 4 * length [104%N; 233%N; 8364%N; 128512%N])%nat.
Proof.
  destruct (text (pystr_of_string "notes") [104%N; 233%N; 8364%N; 128512%N]) as [s|e] eqn:E;
    [|discriminate].
  exists s; split; [reflexivity|].
  exact (text_payload_bytes _ _ s E).
Defined.
